(** * epengine: the [simulate] workflow step (src/epengine/workflows/simulate.py)

    A shallow embedding of the simulation step of epengine and of the
    helpers that live in the same module:

    - [_generate_index_data]             (the index of every result row),
    - [_generate_error_warning_counts_df] (counts read from eplusout.end),
    - [Simulate.simulate]                (engine call, error capture,
                                          assembly of the result tables),
    - [add_sizing_design_day]            (the filtered design-day merge).

    Python dictionaries whose order matters are association lists, the
    ones used as plain maps are [gmap]s; exceptions are values of an error
    monad; text is [string] (ASCII). *)

From Stdlib Require Import ZArith String Ascii List Lia.
From stdpp Require Import base option list gmap fin_maps strings pretty.

Open Scope Z_scope.
Open Scope string_scope.
Open Scope list_scope.

(** ** Text helpers: the [str] methods the module calls *)

Module Str.

(** [c.upper()] on one ASCII character. *)
Definition upper_ascii (c : ascii) : ascii :=
  let n := nat_of_ascii c in
  if ((97 <=? n)%nat && (n <=? 122)%nat)%bool then ascii_of_nat (n - 32) else c.

(** [s.upper()]. *)
Fixpoint upper (s : string) : string :=
  match s with
  | EmptyString => EmptyString
  | String c s' => String (upper_ascii c) (upper s')
  end.

(** [s.endswith(suffix)]: some tail of [s] is [suffix]. *)
Fixpoint endswith (s suffix : string) : bool :=
  if String.eqb s suffix then true
  else match s with
       | EmptyString => false
       | String _ s' => endswith s' suffix
       end.

(** The line feed, and a text made of lines. *)
Definition LF : string := String "010"%char EmptyString.

Definition digit_value (c : ascii) : Z := Z.of_nat (nat_of_ascii c) - 48.

Fixpoint int_from (acc : Z) (s : string) : Z :=
  match s with
  | EmptyString => acc
  | String c s' => int_from (10 * acc + digit_value c) s'
  end.

(** [int(s)] for a text made of decimal digits. *)
Definition int (s : string) : Z := int_from 0 s.

End Str.

(** ** The fragment of Python's [re] that the two patterns use

    [re.match] anchors the pattern at the start of the text and does not
    require it to reach the end.  Without flags, [.] is every character
    but the line feed.  Quantifiers are greedy and give back characters
    one at a time when the rest of the pattern fails. *)

Module Re.

Inductive cls : Type :=
| Dot                 (* .  *)
| WhiteSpace          (* \s *)
| Digit               (* \d *)
| Char (c : ascii).   (* a literal character *)

Definition is_space (c : ascii) : bool :=
  let n := nat_of_ascii c in
  ((9 <=? n)%nat && (n <=? 13)%nat || (28 <=? n)%nat && (n <=? 32)%nat)%bool.

Definition is_digit (c : ascii) : bool :=
  let n := nat_of_ascii c in ((48 <=? n)%nat && (n <=? 57)%nat)%bool.

Definition cls_match (a : cls) (c : ascii) : bool :=
  match a with
  | Dot => negb (Ascii.eqb c "010"%char)
  | WhiteSpace => is_space c
  | Digit => is_digit c
  | Char d => Ascii.eqb c d
  end.

Inductive regex : Type :=
| Empty
| Atom (a : cls)
| Star (a : cls)            (* a*  *)
| Plus (a : cls)            (* a+  *)
| Group (r : regex)         (* (r) *)
| Seq (r1 r2 : regex).

(** A literal run of characters. *)
Fixpoint lit (s : string) : regex :=
  match s with
  | EmptyString => Empty
  | String c s' => Seq (Atom (Char c)) (lit s')
  end.

Section Matcher.
Context {R : Type}.

(** Greedy [a*] followed by the continuation [k]: take one more
    character when possible, and fall back to stopping here. *)
Fixpoint star (a : cls) (k : string -> option R) (s : string) : option R :=
  match s with
  | String c s' =>
      if cls_match a c
      then match star a k s' with
           | Some r => Some r
           | None => k s
           end
      else k s
  | EmptyString => k s
  end.
End Matcher.

(** The text consumed between [s] and its tail [s']. *)
Definition consumed (s s' : string) : string :=
  substring 0 (String.length s - String.length s') s.

(** Backtracking matcher in continuation-passing style; [gs] collects the
    text of the groups closed so far. *)
Fixpoint go (r : regex) (s : string) (gs : list string)
    (k : string -> list string -> option (list string)) : option (list string) :=
  match r with
  | Empty => k s gs
  | Atom a =>
      match s with
      | String c s' => if cls_match a c then k s' gs else None
      | EmptyString => None
      end
  | Star a => star a (fun s' => k s' gs) s
  | Plus a =>
      match s with
      | String c s' => if cls_match a c then star a (fun s'' => k s'' gs) s' else None
      | EmptyString => None
      end
  | Group r1 => go r1 s gs (fun s' gs' => k s' (gs' ++ [consumed s s']))
  | Seq r1 r2 => go r1 s gs (fun s' gs' => go r2 s' gs' k)
  end.

(** A pattern without parentheses. *)
Fixpoint group_free (r : regex) : bool :=
  match r with
  | Group _ => false
  | Seq r1 r2 => group_free r1 && group_free r2
  | _ => true
  end.

(** [re.match(r, s)]: [None], or the match object's [groups()]. *)
Definition re_match (r : regex) (s : string) : option (list string) :=
  go r s [] (fun _ gs => Some gs).

End Re.

(** [severe_reg = r".*\s(\d+)\sSevere Errors.*"] *)
Definition severe_reg : Re.regex :=
  Re.Seq (Re.Star Re.Dot)
    (Re.Seq (Re.Atom Re.WhiteSpace)
       (Re.Seq (Re.Group (Re.Plus Re.Digit))
          (Re.Seq (Re.Atom Re.WhiteSpace)
             (Re.Seq (Re.lit "Severe Errors") (Re.Star Re.Dot))))).

(** [warning_reg = r".*\s(\d+)\sWarning.*"] *)
Definition warning_reg : Re.regex :=
  Re.Seq (Re.Star Re.Dot)
    (Re.Seq (Re.Atom Re.WhiteSpace)
       (Re.Seq (Re.Group (Re.Plus Re.Digit))
          (Re.Seq (Re.Atom Re.WhiteSpace)
             (Re.Seq (Re.lit "Warning") (Re.Star Re.Dot))))).

(** [int(m.groups()[0]) if m else 0] *)
Definition count_of (m : option (list string)) : Z :=
  match m with
  | Some gs => Str.int (hd EmptyString gs)
  | None => 0
  end.

(** Lines 148-153 of [_generate_error_warning_counts_df]. *)
Definition severe_ct (err_str : string) : Z := count_of (Re.re_match severe_reg err_str).
Definition warning_ct (err_str : string) : Z := count_of (Re.re_match warning_reg err_str).

Definition two_line_summary : string :=
  "...  3 Severe Errors..." +:+ Str.LF +:+ "...  7 Warning..." +:+ Str.LF.

Definition one_line_summary : string :=
  "EnergyPlus Completed Successfully-- 7 Warning; 3 Severe Errors; Elapsed Time=00hr 00min  2.50sec"
  +:+ Str.LF.

(** ** Values, dictionaries and tables *)

(** A value in JSON mode, as [model_dump(mode="json")] produces it.  A
    float is carried as its binary64 bit pattern; nothing here computes
    with it. *)
#[local] Unset Elimination Schemes.
Inductive json : Type :=
| JNull
| JBool (b : bool)
| JInt (n : Z)
| JFloat (bits : Z)
| JStr (s : string)
| JList (l : list json)
| JDict (d : list (string * json)).
#[local] Set Elimination Schemes.

Definition is_None (v : json) : bool :=
  match v with JNull => true | _ => false end.

(** A Python [dict] with string keys whose order is observed: an
    association list in insertion order. *)
Module Dict.
Section Operations.
Context {V : Type}.

Definition keys (d : list (string * V)) : list string := d.*1.
Definition values (d : list (string * V)) : list V := d.*2.

(** [d[k] = v]: an existing key keeps its place, a new one goes last. *)
Fixpoint set (d : list (string * V)) (k : string) (v : V) : list (string * V) :=
  match d with
  | [] => [(k, v)]
  | (k', v') :: d' =>
      if String.eqb k' k then (k, v) :: d' else (k', v') :: set d' k v
  end.

Fixpoint get (d : list (string * V)) (k : string) : option V :=
  match d with
  | [] => None
  | (k', v') :: d' => if String.eqb k' k then Some v' else get d' k
  end.
End Operations.
End Dict.

(** A [pandas.DataFrame] with a [MultiIndex]: the names of the index
    levels, one index tuple per row, the column labels and the rows. *)
Record DataFrame : Type := {
  index_names : list string;
  index : list (list json);
  columns : list string;
  data : list (list json)
}.

(** ** The specification and its context *)

(** The Hatchet context: [workflow_run_id()] gives the run identifier. *)
Record Context : Type := { workflow_run_id : string }.

(** [SimulationSpecWithContext].  The class is declared in
    epengine.models, outside this module: [fields] lists its fields in
    declared order with their values, a field that is [None] holding
    [JNull] and a float holding its bit pattern (a list or a dict is
    carried as it is dumped); the context is carried beside them. *)
Record SimulationSpecWithContext : Type := {
  fields : list (string * json);
  hcontext : Context
}.

(** A binary64 bit pattern that is an infinity or a NaN: its eleven
    exponent bits are all set. *)
Definition is_inf_nan (bits : Z) : bool :=
  Z.eqb (Z.land (Z.shiftr bits 52) 2047) 2047.
Arguments is_inf_nan : simpl never.

(** The value of a field in JSON mode: a float that is infinite or not a
    number is dumped as [None]. *)
Definition json_mode (v : json) : json :=
  match v with
  | JFloat bits => if is_inf_nan bits then JNull else v
  | _ => v
  end.

(** [spec.model_dump(mode="json", exclude_none=True)]: the fields whose
    value is [None] are left out, the others are dumped in JSON mode. *)
Definition model_dump_exclude_none (spec : SimulationSpecWithContext)
    : list (string * json) :=
  (fun kv => (fst kv, json_mode (snd kv)))
  <$> filter (fun kv => negb (is_None (snd kv))) (fields spec).

(** The names of the fields of [spec] that are not [None]. *)
Definition non_null_field_names (spec : SimulationSpecWithContext) : list string :=
  Dict.keys (model_dump_exclude_none spec).

(** [_generate_index_data] (lines 121-133). *)
Definition _generate_index_data (spec : SimulationSpecWithContext)
    : list (string * json) :=
  let index_data := model_dump_exclude_none spec in
  let workflow_run_id := workflow_run_id (hcontext spec) in
  Dict.set index_data "workflow_run_id" (JStr workflow_run_id).

(** ** Exceptions *)

(** What a raised object shows: its class name and [str(e)]. *)
Record pyexc : Type := { exc_type : string; exc_str : string }.

(** A raised object is an instance of [Exception], which
    [except Exception] catches, or of [BaseException] only
    (KeyboardInterrupt, SystemExit), which it does not. *)
Inductive throwable : Type :=
| Exception (e : pyexc)
| BaseExceptionOnly (e : pyexc).

Inductive result (A : Type) : Type :=
| Ok (a : A)
| Raise (t : throwable).
Arguments Ok {A} a.
Arguments Raise {A} t.

#[global] Instance result_ret : MRet result := fun A a => Ok a.
#[global] Instance result_bind : MBind result := fun A B f m =>
  match m with
  | Ok a => f a
  | Raise t => Raise t
  end.

(** ** Building an index and a frame of one row *)

(** A value that can be hashed: a list and a dict cannot. *)
Definition hashable (v : json) : bool :=
  match v with
  | JList _ | JDict _ => false
  | _ => true
  end.

Definition unhashable_type (v : json) : pyexc :=
  {| exc_type := "TypeError";
     exc_str := match v with
                | JDict _ => "unhashable type: 'dict'"
                | _ => "unhashable type: 'list'"
                end |}.

Definition no_levels : pyexc :=
  {| exc_type := "ValueError";
     exc_str := "Length of names must match number of levels in MultiIndex." |}.

(** A [pandas.MultiIndex]: the names of its levels and its tuples. *)
Record MultiIndex : Type := {
  names : list string;
  tuples : list (list json)
}.

(** [pd.MultiIndex.from_tuples([tuple(index_data.values())],
                               names=list(index_data.keys()))].
    pandas hashes the values of the tuple and raises on one that cannot
    be hashed; it raises on a tuple without values too. *)
Definition MultiIndex_from_tuples (index_data : list (string * json))
    : result MultiIndex :=
  match index_data with
  | [] => Raise (Exception no_levels)
  | _ :: _ =>
      match List.find (fun v => negb (hashable v)) (Dict.values index_data) with
      | Some v => Raise (Exception (unhashable_type v))
      | None => Ok {| names := Dict.keys index_data;
                      tuples := [Dict.values index_data] |}
      end
  end.

(** An integer that does not convert to a float: [float(n)] raises
    OverflowError from 2^1024 - 2^970 on. *)
Definition float_overflows (n : Z) : bool :=
  Z.leb (2 ^ 1024 - 2 ^ 970) (Z.abs n).
Arguments float_overflows : simpl never.

Definition cell_overflows (v : json) : bool :=
  match v with
  | JInt n => float_overflows n
  | _ => false
  end.

Definition int_too_large : pyexc :=
  {| exc_type := "OverflowError";
     exc_str := "int too large to convert to float" |}.

(** [pd.DataFrame({col: [cell], ...}, index=mi)] for one row.  While it
    infers the type of a column, pandas converts an integer cell to a
    float, which raises on an integer out of the range of floats. *)
Definition DataFrame_one_row (mi : MultiIndex) (cols : list string)
    (row : list json) : result DataFrame :=
  if existsb cell_overflows row then Raise (Exception int_too_large)
  else Ok {| index_names := names mi;
             index := tuples mi;
             columns := cols;
             data := [row] |}.

(** The index and the frame of one row, as lines 93-98 and 155-161 build
    them. *)
Definition one_row_frame (index_data : list (string * json))
    (cols : list string) (row : list json) : result DataFrame :=
  err_index ← MultiIndex_from_tuples index_data;
  DataFrame_one_row err_index cols row.

(** ** Diagnostics table *)

Definition int_max_str_digits : nat := 4300.

Definition too_many_digits (digits : string) : pyexc :=
  {| exc_type := "ValueError";
     exc_str := "Exceeds the limit (4300 digits) for integer string conversion: value has "
                +:+ pretty (String.length digits)
                +:+ " digits; use sys.set_int_max_str_digits() to increase the limit" |}.

(** [int(digits)]: Python refuses a text of more than 4300 digits. *)
Definition int (digits : string) : result Z :=
  if (int_max_str_digits <? String.length digits)%nat
  then Raise (Exception (too_many_digits digits))
  else Ok (Str.int digits).

(** [int(m.groups()[0]) if m else 0], as it runs. *)
Definition int_of_match (m : option (list string)) : result Z :=
  match m with
  | Some gs => int (hd EmptyString gs)
  | None => Ok 0
  end.

(** [_generate_error_warning_counts_df] (lines 136-161); [read_text] is
    the outcome of [end_file.read_text()]. *)
Definition _generate_error_warning_counts_df (read_text : result string)
    (index_data : list (string * json)) : result DataFrame :=
  err_str ← read_text;
  let severe_matcher := Re.re_match severe_reg err_str in
  let warning_matcher := Re.re_match warning_reg err_str in
  severe ← int_of_match severe_matcher;
  warning ← int_of_match warning_matcher;
  one_row_frame index_data ["warnings"; "severe"] [JInt warning; JInt severe].

(** ** The simulate step *)

(** What the world answers during one attempt. *)
Record Attempt (Sql : Type) : Type := {
  (** lines 55-82: copy of the model, loading, design-day injection *)
  prepare : result unit;
  (** line 85: [idf.simulate()] *)
  idf_simulate : result unit;
  (** line 103: [Sql(idf.sql_file)] *)
  sql_open : result Sql;
  (** line 147: [(idf.simulation_dir / "eplusout.end").read_text()] *)
  end_file_read_text : result string
}.
Arguments prepare {Sql} _.
Arguments idf_simulate {Sql} _.
Arguments sql_open {Sql} _.
Arguments end_file_read_text {Sql} _.

Section Simulate.
(** The engine's structured output store, and a serialised table. *)
Variables (Sql Payload : Type).

(** What the tabular extraction finds in the store for the requested
    summary sections and value columns: per table name, the column
    labels and the rows. *)
Variable tabular_data :
  Sql -> list (string * string) -> list string ->
  gmap string (list string * list (list json)).

(** The serialisation of one table. *)
Variable serialize_df : DataFrame -> Payload.

(** Modelled from the spec: [postprocess] of epengine.utils.results is
    not part of this module.  It produces the performance-summary tables
    extracted from the store, each row indexed by the index data. *)
Definition postprocess (sql : Sql) (index_data : list (string * json))
    (tabular_lookups : list (string * string)) (cols : list string)
    : gmap string DataFrame :=
  (fun body : list string * list (list json) =>
     {| index_names := Dict.keys index_data;
        index := map (fun _ => Dict.values index_data) (snd body);
        columns := fst body;
        data := snd body |})
  <$> tabular_data sql tabular_lookups cols.

(** Modelled from the spec: [serialize_df_dict] of epengine.utils.results
    is not part of this module.  It maps every table name to the
    serialised payload of its table. *)
Definition serialize_df_dict (dfs : gmap string DataFrame) : gmap string Payload :=
  serialize_df <$> dfs.

(** Lines 84-114: the engine call and the two branches.  What the
    handler of the [except] clause raises itself leaves the step.
    Logging has no effect on the result and is left out. *)
Definition run_and_collect (spec : SimulationSpecWithContext) (a : Attempt Sql)
    : result (gmap string DataFrame) :=
  match idf_simulate a with
  | Raise (Exception e) =>
      let dfs : gmap string DataFrame := ∅ in
      let index_data := _generate_index_data spec in
      err_df ← one_row_frame index_data ["msg"] [JStr (exc_str e)];
      Ok (<["err" := err_df]> dfs)
  | Raise t => Raise t
  | Ok _ =>
      sql ← sql_open a;
      let index_data := _generate_index_data spec in
      err_df ← _generate_error_warning_counts_df (end_file_read_text a) index_data;
      let dfs :=
        postprocess sql index_data
          [("AnnualBuildingUtilityPerformanceSummary", "End Uses")]
          ["Electricity"; "Natural Gas"; "Fuel Oil No 2"] in
      Ok (<["energyplus_message_counts" := err_df]> dfs)
  end.

(** [Simulate.simulate] (lines 43-118). *)
Definition simulate (spec : SimulationSpecWithContext) (a : Attempt Sql)
    : result (gmap string Payload) :=
  _ ← prepare a;
  dfs ← run_and_collect spec a;
  Ok (serialize_df_dict dfs).

End Simulate.

Arguments postprocess {Sql} tabular_data sql index_data tabular_lookups cols.
Arguments serialize_df_dict {Payload} serialize_df dfs.
Arguments run_and_collect {Sql} tabular_data spec a.
Arguments simulate {Sql Payload} tabular_data serialize_df spec a.

(** ** Model documents and the filtered design-day merge *)

(** An object of a model document (eppy's [EpBunch]): its type name as
    the data dictionary spells it, the fields that it holds with their
    values, and the names of the fields that the data dictionary declares
    for its type, of which the object may hold the first ones only. *)
Record EpBunch : Type := {
  key : string;
  fieldvalues : list (string * string);
  objls : list string
}.

(** [getattr(obj, name, dflt)]: the value of a field that the object
    holds; the empty text for a field that the data dictionary declares
    and the object does not hold; [dflt] when the type has no such field
    (the attribute error is caught by [getattr]). *)
Definition getattr (obj : EpBunch) (name dflt : string) : string :=
  match Dict.get (fieldvalues obj) name with
  | Some v => v
  | None => if bool_decide (name ∈ objls obj) then EmptyString else dflt
  end.

(** [idf.idfobjects]: the objects of every category, by upper-case
    category name.  A category without an entry holds no object. *)
Abbreviation idfobjects := (gmap string (list EpBunch)).

(** [idf.removeallidfobjects(objtype)] *)
Definition removeallidfobjects (idf : idfobjects) (objtype : string) : idfobjects :=
  <[objtype := []]> idf.

(** [idf.addidfobject(obj)]: appended to the category of its own key. *)
Definition addidfobject (idf : idfobjects) (obj : EpBunch) : idfobjects :=
  let k := Str.upper (key obj) in
  <[k := (idf !!! k) ++ [obj]]> idf.

Definition excluded_keys : list string :=
  ["SITE:PRECIPITATION"; "ROOFIRRIGATION"; "SCHEDULE:FILE"].

(** The test of lines 179-183. *)
Definition is_skipped (obj : EpBunch) : bool :=
  bool_decide (Str.upper (key obj) ∈ excluded_keys)
  && Str.endswith (getattr obj "File_Name" "rain") "rain".

(** One turn of the inner loop (lines 178-188). *)
Definition merge_object (objtype : string) (idf : idfobjects) (obj : EpBunch)
    : idfobjects :=
  if is_skipped obj then idf
  else addidfobject (removeallidfobjects idf objtype) obj.

(** One turn of the outer loop (lines 176-188). *)
Definition merge_sequence (idf : idfobjects) (objtype : string)
    (sequence : list EpBunch) : idfobjects :=
  match sequence with
  | [] => idf
  | _ :: _ => foldl (merge_object objtype) idf sequence
  end.

(** [add_sizing_design_day] (lines 164-189) once the secondary document is
    loaded; [ddy_items] is [ddy.idfobjects.items()] in the order of the
    dictionary. *)
Definition add_sizing_design_day (idf : idfobjects)
    (ddy_items : list (string * list EpBunch)) : idfobjects :=
  foldl (fun idf item => merge_sequence idf (fst item) (snd item)) idf ddy_items.

(** What eppy guarantees of [idfobjects]: every object sits in the
    category named by its own key in upper case. *)
Definition well_keyed (items : list (string * list EpBunch)) : Prop :=
  ∀ objtype sequence obj,
    (objtype, sequence) ∈ items → obj ∈ sequence → Str.upper (key obj) = objtype.

(** ** Sample data *)

Module Sample.

Definition spec : SimulationSpecWithContext :=
  {| fields := [("experiment_id", JStr "exp"); ("sort_index", JInt 0);
                ("idf_uri", JStr "a.idf"); ("epw_uri", JStr "a.epw");
                ("ddy_uri", JNull)];
     hcontext := {| workflow_run_id := "run-1" |} |}.

Definition boom : pyexc :=
  {| exc_type := "EnergyPlusProcessError"; exc_str := "EnergyPlus terminated" |}.

Definition missing : pyexc :=
  {| exc_type := "FileNotFoundError"; exc_str := "No such file: eplusout.end" |}.

(** A store in which the extraction finds nothing. *)
Definition no_tables : unit -> list (string * string) -> list string ->
    gmap string (list string * list (list json)) :=
  fun _ _ _ => ∅.

Definition failed : Attempt unit :=
  {| prepare := Ok tt; idf_simulate := Raise (Exception boom);
     sql_open := Ok tt; end_file_read_text := Raise (Exception missing) |}.

Definition succeeded : Attempt unit :=
  {| prepare := Ok tt; idf_simulate := Ok tt;
     sql_open := Ok tt; end_file_read_text := Ok one_line_summary |}.

Definition no_end_file : Attempt unit :=
  {| prepare := Ok tt; idf_simulate := Ok tt;
     sql_open := Ok tt; end_file_read_text := Raise (Exception missing) |}.

Definition interrupted : Attempt unit :=
  {| prepare := Ok tt;
     idf_simulate := Raise (BaseExceptionOnly {| exc_type := "KeyboardInterrupt"; exc_str := "" |});
     sql_open := Ok tt; end_file_read_text := Ok one_line_summary |}.

Definition design_day_fields : list string :=
  ["Name"; "Month"; "Day_of_Month"; "Day_Type"; "Maximum_DryBulb_Temperature";
   "Daily_DryBulb_Temperature_Range"; "DryBulb_Temperature_Range_Modifier_Type";
   "DryBulb_Temperature_Range_Modifier_Day_Schedule_Name";
   "Humidity_Condition_Type"; "Wetbulb_or_DewPoint_at_Maximum_DryBulb";
   "Humidity_Condition_Day_Schedule_Name"; "Humidity_Ratio_at_Maximum_DryBulb";
   "Enthalpy_at_Maximum_DryBulb"; "Daily_WetBulb_Temperature_Range";
   "Barometric_Pressure"; "Wind_Speed"; "Wind_Direction"; "Rain_Indicator";
   "Snow_Indicator"; "Daylight_Saving_Time_Indicator"; "Solar_Model_Indicator";
   "Beam_Solar_Day_Schedule_Name"; "Diffuse_Solar_Day_Schedule_Name";
   "ASHRAE_Clear_Sky_Optical_Depth_for_Beam_Irradiance_taub";
   "ASHRAE_Clear_Sky_Optical_Depth_for_Diffuse_Irradiance_taud"; "Sky_Clearness"].

Definition schedule_file_fields : list string :=
  ["Name"; "Schedule_Type_Limits_Name"; "File_Name"; "Column_Number";
   "Rows_to_Skip_at_Top"; "Number_of_Hours_of_Data"; "Column_Separator";
   "Interpolate_to_Timestep"; "Minutes_per_Item"].

Definition precipitation_fields : list string :=
  ["Precipitation_Model_Type"; "Design_Level_for_Total_Annual_Precipitation";
   "Precipitation_Rates_Schedule_Name"; "Average_Total_Annual_Precipitation"].

Definition design_day (name : string) : EpBunch :=
  {| key := "SizingPeriod:DesignDay"; fieldvalues := [("Name", name)];
     objls := design_day_fields |}.

Definition schedule_file (name file : string) : EpBunch :=
  {| key := "Schedule:File";
     fieldvalues := [("Name", name); ("Schedule_Type_Limits_Name", "Any Number");
                     ("File_Name", file)];
     objls := schedule_file_fields |}.

Definition precipitation : EpBunch :=
  {| key := "Site:Precipitation";
     fieldvalues := [("Precipitation_Model_Type", "ScheduleAndDesignLevel")];
     objls := precipitation_fields |}.

Definition primary : idfobjects :=
  {[ "SIZINGPERIOD:DESIGNDAY" := [design_day "old winter"; design_day "old summer"];
     "SCHEDULE:FILE" := [schedule_file "occupancy" "occupancy.csv"];
     "SITE:PRECIPITATION" := [precipitation] ]}.

Definition secondary : list (string * list EpBunch) :=
  [("SITE:PRECIPITATION", []);
   ("SIZINGPERIOD:DESIGNDAY", [design_day "Ann Htg 99.6%"; design_day "Ann Clg .4%"]);
   ("SCHEDULE:FILE", [schedule_file "rain" "weather.rain"])].

Definition secondary_csv : list (string * list EpBunch) :=
  [("SCHEDULE:FILE", [schedule_file "loads" "loads.csv"])].

End Sample.

(** ** Notions used to state further properties *)

(** Every value of the index data can be hashed. *)
Definition index_hashable (index_data : list (string * json)) : bool :=
  forallb hashable (Dict.values index_data).

(** A match whose group [int] accepts. *)
Definition digits_accepted (m : option (list string)) : bool :=
  match m with
  | Some gs => (String.length (hd EmptyString gs) <=? int_max_str_digits)%nat
  | None => true
  end.

(** A summary text whose two counts Python converts and pandas stores:
    at most 4300 digits each, and within the range of floats. *)
Definition counts_accepted (err_str : string) : bool :=
  digits_accepted (Re.re_match severe_reg err_str)
  && digits_accepted (Re.re_match warning_reg err_str)
  && negb (float_overflows (severe_ct err_str))
  && negb (float_overflows (warning_ct err_str)).

(** The frame that [_generate_error_warning_counts_df] answers with. *)
Definition message_counts (index_data : list (string * json)) (err_str : string)
    : DataFrame :=
  {| index_names := Dict.keys index_data;
     index := [Dict.values index_data];
     columns := ["warnings"; "severe"];
     data := [[JInt (warning_ct err_str); JInt (severe_ct err_str)]] |}.

(** The objects of a sequence that the test of lines 179-183 lets
    through, in the order of the sequence. *)
Definition copied (sequence : list EpBunch) : list EpBunch :=
  filter (fun obj => is_skipped obj = false) sequence.

(** Every character of a text passes a test. *)
Fixpoint all_chars (p : ascii -> bool) (s : string) : bool :=
  match s with
  | EmptyString => true
  | String c s' => p c && all_chars p s'
  end.

(** A text that begins with a count of [word]: a white space, the
    digits, a white space and the word. *)
Definition begins_with_count (word digits s : string) : Prop :=
  ∃ c1 c2 rest,
    s = String c1 (digits +:+ String c2 (word +:+ rest))
    ∧ Re.is_space c1 = true
    ∧ digits ≠ EmptyString ∧ all_chars Re.is_digit digits = true
    ∧ Re.is_space c2 = true.

(** A text with a count of [word] at a place that [.*] reaches from the
    start: behind characters other than the line feed. *)
Definition has_count (word digits s : string) : Prop :=
  ∃ pre tail,
    s = pre +:+ tail
    ∧ all_chars (Re.cls_match Re.Dot) pre = true
    ∧ begins_with_count word digits tail.

(** No count of [word] begins further on in [tail] at a place that [.*]
    reaches from the start of [tail]. *)
Definition last_count_place (word tail : string) : Prop :=
  ∀ pre2 tail2 digits2,
    tail = pre2 +:+ tail2 → pre2 ≠ EmptyString →
    all_chars (Re.cls_match Re.Dot) pre2 = true →
    ¬ begins_with_count word digits2 tail2.

(** [\s(\d+)\s<word>.*]: the two patterns behind their leading [.*]. *)
Definition count_here (word : string) : Re.regex :=
  Re.Seq (Re.Atom Re.WhiteSpace)
    (Re.Seq (Re.Group (Re.Plus Re.Digit))
       (Re.Seq (Re.Atom Re.WhiteSpace)
          (Re.Seq (Re.lit word) (Re.Star Re.Dot)))).

(** The tails of [s] behind a run of characters other than the line
    feed, and the test that none of them begins with a count. *)
Fixpoint later_places (s : string) : list string :=
  match s with
  | EmptyString => []
  | String c s' => if Re.cls_match Re.Dot c then s' :: later_places s' else []
  end.

Definition no_later_count (word tail : string) : bool :=
  forallb (fun t => match Re.re_match (count_here word) t with
                    | Some _ => false
                    | None => true
                    end) (later_places tail).

Module MoreSamples.

(** A specification with a field that bears the name of the run key. *)
Definition clashing : SimulationSpecWithContext :=
  {| fields := [("workflow_run_id", JStr "from the caller"); ("sort_index", JInt 3)];
     hcontext := {| workflow_run_id := "run-2" |} |}.

(** The sample specification with its design-day file set. *)
Definition with_ddy : SimulationSpecWithContext :=
  {| fields := [("experiment_id", JStr "exp"); ("sort_index", JInt 0);
                ("idf_uri", JStr "a.idf"); ("epw_uri", JStr "a.epw");
                ("ddy_uri", JStr "a.ddy")];
     hcontext := {| workflow_run_id := "run-1" |} |}.

(** A specification with a field that holds a list. *)
Definition with_list : SimulationSpecWithContext :=
  {| fields := [("experiment_id", JStr "exp"); ("sort_index", JInt 0);
                ("tags", JList [JStr "a"; JStr "b"])];
     hcontext := {| workflow_run_id := "run-3" |} |}.

(** A specification with a float field that is not a number (a quiet
    NaN) and one that is null. *)
Definition with_nan : SimulationSpecWithContext :=
  {| fields := [("experiment_id", JStr "exp"); ("ratio", JFloat 9221120237041090560);
                ("ddy_uri", JNull)];
     hcontext := {| workflow_run_id := "run-4" |} |}.

(** A store in which the extraction finds the end uses. *)
Definition end_uses : unit -> list (string * string) -> list string ->
    gmap string (list string * list (list json)) :=
  fun _ _ cols =>
    {[ "AnnualBuildingUtilityPerformanceSummary_End_Uses" :=
         (cols, [[JInt 120; JInt 30; JInt 0]]) ]}.

(** A Schedule:File cut short before its file name. *)
Definition truncated_schedule : EpBunch :=
  {| key := "Schedule:File";
     fieldvalues := [("Name", "loads"); ("Schedule_Type_Limits_Name", "Any Number")];
     objls := Sample.schedule_file_fields |}.

Definition sql_missing : Attempt unit :=
  {| prepare := Ok tt; idf_simulate := Ok tt;
     sql_open := Raise (Exception Sample.missing);
     end_file_read_text := Ok one_line_summary |}.

(** A secondary document that holds rain stubs only. *)
Definition rain_only : list (string * list EpBunch) :=
  [("SITE:PRECIPITATION", [Sample.precipitation]);
   ("SIZINGPERIOD:DESIGNDAY", []);
   ("SCHEDULE:FILE", [Sample.schedule_file "rain" "weather.rain"])].

(** A secondary document with a rain stub after a schedule to copy. *)
Definition mixed : list (string * list EpBunch) :=
  [("SCHEDULE:FILE", [Sample.schedule_file "loads" "loads.csv";
                      Sample.schedule_file "rain" "weather.rain"]);
   ("SIZINGPERIOD:DESIGNDAY", [Sample.design_day "Ann Clg .4%"])].

End MoreSamples.

(** * Properties *)

(** A decidable statement about closed data, settled by evaluation. *)
Ltac by_evaluation := apply (bool_decide_unpack _); vm_compute; exact I.

(** ** Dictionaries *)

Section DictFacts.
Context {V : Type}.
Implicit Types (d : list (string * V)) (k : string) (v : V).

Lemma dict_set_fresh d k v :
  k ∉ Dict.keys d → Dict.set d k v = d ++ [(k, v)].
Proof.
  unfold Dict.keys.
  induction d as [|[k' v'] d IH]; simpl; intros Hk; [done|].
  apply not_elem_of_cons in Hk as [Hne Hk].
  destruct (String.eqb_spec k' k) as [->|_]; [done|].
  by rewrite IH.
Qed.

Lemma dict_keys_set d k v x :
  x ∈ Dict.keys (Dict.set d k v) ↔ x ∈ Dict.keys d ∨ x = k.
Proof.
  unfold Dict.keys.
  induction d as [|[k' v'] d IH]; simpl.
  - rewrite list_elem_of_singleton, elem_of_nil. tauto.
  - destruct (String.eqb_spec k' k) as [->|Hne]; simpl;
      rewrite !elem_of_cons; [tauto|].
    rewrite IH. tauto.
Qed.

Lemma dict_get_set d k v : Dict.get (Dict.set d k v) k = Some v.
Proof.
  induction d as [|[k' v'] d IH]; simpl.
  - by rewrite String.eqb_refl.
  - destruct (String.eqb_spec k' k) as [->|Hne]; simpl.
    + by rewrite String.eqb_refl.
    + by destruct (String.eqb_spec k' k).
Qed.
End DictFacts.

(** ** The index (claims C1 and C3) *)

Lemma non_null_field_names_filter (spec : SimulationSpecWithContext) :
  non_null_field_names spec
  = (filter (fun kv => negb (is_None (snd kv))) (fields spec)).*1.
Proof.
  unfold non_null_field_names, model_dump_exclude_none, Dict.keys.
  rewrite <- list_fmap_compose. by apply list_fmap_ext.
Qed.

Lemma non_null_field_names_spec (spec : SimulationSpecWithContext) (k : string) :
  k ∈ non_null_field_names spec ↔ ∃ v, (k, v) ∈ fields spec ∧ v ≠ JNull.
Proof.
  rewrite non_null_field_names_filter.
  rewrite list_elem_of_fmap. split.
  - intros [[k' v] [-> [Hv Hin]%list_elem_of_filter]]. exists v. split; [done|].
    simpl in Hv. by destruct v.
  - intros (v & Hin & Hv). exists (k, v). split; [done|].
    apply list_elem_of_filter. split; [|done]. simpl. by destruct v.
Qed.

Lemma non_null_field_names_order (spec : SimulationSpecWithContext) :
  non_null_field_names spec `sublist_of` Dict.keys (fields spec).
Proof.
  rewrite non_null_field_names_filter. unfold Dict.keys.
  apply fmap_sublist, sublist_filter.
Qed.

(** C3, as the specification words it, fails: the key that carries the
    run identifier is not [run_id]. *)
Lemma index_keys_not_run_id :
  Dict.keys (_generate_index_data Sample.spec)
  ≠ non_null_field_names Sample.spec ++ ["run_id"].
Proof. vm_compute. discriminate. Qed.

(** C3 (amended): the index built by [_generate_index_data] is the
    ordered sequence of the fields of the specification that are not null,
    in declared order, followed by the pair whose key is the literal
    [workflow_run_id] and whose value is the run identifier, for a
    specification that has no field of that name set. *)
Theorem index_data_is_fields_then_workflow_run_id
    (spec : SimulationSpecWithContext)
    (Hfresh : "workflow_run_id" ∉ non_null_field_names spec) :
  _generate_index_data spec
  = model_dump_exclude_none spec
    ++ [("workflow_run_id", JStr (workflow_run_id (hcontext spec)))]
  ∧ Dict.keys (_generate_index_data spec)
    = non_null_field_names spec ++ ["workflow_run_id"]
  ∧ non_null_field_names spec `sublist_of` Dict.keys (fields spec)
  ∧ (∀ k, k ∈ non_null_field_names spec ↔ ∃ v, (k, v) ∈ fields spec ∧ v ≠ JNull).
Proof.
  assert (Heq : _generate_index_data spec
                = model_dump_exclude_none spec
                  ++ [("workflow_run_id", JStr (workflow_run_id (hcontext spec)))]).
  { unfold _generate_index_data. by apply dict_set_fresh. }
  split; [exact Heq|]. split.
  - rewrite Heq. unfold non_null_field_names, Dict.keys. by rewrite fmap_app.
  - split; [apply non_null_field_names_order|].
    intros k. apply non_null_field_names_spec.
Qed.

Lemma index_data_is_fields_then_workflow_run_id_witness :
  Dict.keys (_generate_index_data Sample.spec)
  = ["experiment_id"; "sort_index"; "idf_uri"; "epw_uri"; "workflow_run_id"].
Proof.
  refine (proj1 (proj2 (index_data_is_fields_then_workflow_run_id Sample.spec _))).
  vm_compute. intros H. by repeat (inversion H as [|??? H']; subst; clear H; rename H' into H).
Defined.

(** ** Diagnostics extraction (claim C4) *)

(** A match of either pattern has exactly one group, so that
    [groups()[0]] is always there. *)
Lemma star_some {R : Type} (a : Re.cls) (k : string → option R) (s : string) (r : R) :
  Re.star a k s = Some r → ∃ s', k s' = Some r.
Proof.
  induction s as [|c s IH]; simpl; [by eauto|].
  destruct (Re.cls_match a c); [|by eauto].
  destruct (Re.star a k s) as [r'|] eqn:E; [|by eauto].
  intros [= ->]. by apply IH.
Qed.

Lemma go_group_free (r : Re.regex) :
  Re.group_free r = true →
  ∀ s gs k out, Re.go r s gs k = Some out → ∃ s', k s' gs = Some out.
Proof.
  induction r as [|a|a|a|r IH|r1 IH1 r2 IH2]; simpl; intros Hgf s gs k out H.
  - by eauto.
  - destruct s as [|c s]; [done|]. destruct (Re.cls_match a c); [by eauto|done].
  - apply star_some in H as [s' H]. by eauto.
  - destruct s as [|c s]; [done|]. destruct (Re.cls_match a c); [|done].
    apply star_some in H as [s' H]. by eauto.
  - done.
  - apply andb_prop in Hgf as [Hgf1 Hgf2].
    apply (IH1 Hgf1) in H as [s1 H]. by apply (IH2 Hgf2) in H.
Qed.

Lemma count_pattern_one_group (tail : Re.regex) (s : string) (gs : list string) :
  Re.group_free tail = true →
  Re.re_match
    (Re.Seq (Re.Star Re.Dot)
       (Re.Seq (Re.Atom Re.WhiteSpace)
          (Re.Seq (Re.Group (Re.Plus Re.Digit)) tail))) s = Some gs →
  ∃ g, gs = [g].
Proof.
  intros Hgf. unfold Re.re_match. simpl. intros H.
  apply star_some in H as [s1 H].
  destruct s1 as [|c1 s1]; [done|]. destruct (Re.is_space c1); [|done].
  destruct s1 as [|c2 s2]; [done|]. destruct (Re.is_digit c2); [|done].
  apply star_some in H as [s3 H].
  apply (go_group_free tail Hgf) in H as [s4 [= <-]]. by eauto.
Qed.

Lemma severe_reg_one_group (s : string) (gs : list string) :
  Re.re_match severe_reg s = Some gs → ∃ g, gs = [g].
Proof. by apply count_pattern_one_group. Qed.

Lemma warning_reg_one_group (s : string) (gs : list string) :
  Re.re_match warning_reg s = Some gs → ∃ g, gs = [g].
Proof. by apply count_pattern_one_group. Qed.

(** On the one-line summary that the engine writes, both counts are read. *)
Example one_line_summary_counts :
  severe_ct one_line_summary = 3 ∧ warning_ct one_line_summary = 7.
Proof. by vm_compute. Qed.

(** C4, as the specification words it, fails: on the two-line text the
    warning count is not 7. *)
Lemma two_line_summary_counts_not_3_7 :
  (severe_ct two_line_summary, warning_ct two_line_summary) ≠ (3, 7).
Proof. vm_compute. discriminate. Qed.

(** C4 (amended): on the two-line text, severe line first, the extraction
    yields severe count 3 and warning count 0, the warning pattern being
    matched from the start of the text with a [.] that stops at the end of
    the first line; on any text in which neither pattern matches it
    yields 0 and 0. *)
Theorem diagnostics_counts_two_lines_and_no_match :
  (severe_ct two_line_summary = 3 ∧ warning_ct two_line_summary = 0)
  ∧ ∀ err_str : string,
      Re.re_match severe_reg err_str = None →
      Re.re_match warning_reg err_str = None →
      severe_ct err_str = 0 ∧ warning_ct err_str = 0.
Proof.
  split; [by vm_compute|].
  intros err_str Hs Hw. unfold severe_ct, warning_ct. by rewrite Hs, Hw.
Qed.

Lemma diagnostics_counts_two_lines_and_no_match_witness :
  severe_ct "EnergyPlus Terminated--Fatal Error Detected." = 0
  ∧ warning_ct "EnergyPlus Terminated--Fatal Error Detected." = 0.
Proof.
  apply (proj2 diagnostics_counts_two_lines_and_no_match); by vm_compute.
Defined.

(** ** The simulate step (claims C1, C2, C8 and C9) *)

Lemma index_data_not_empty (spec : SimulationSpecWithContext) :
  _generate_index_data spec ≠ [].
Proof.
  unfold _generate_index_data.
  destruct (model_dump_exclude_none spec) as [|[k v] d]; simpl; [done|].
  by destruct (String.eqb k "workflow_run_id").
Qed.

Lemma find_unhashable_None (vs : list json) :
  forallb hashable vs = true →
  List.find (fun v => negb (hashable v)) vs = None.
Proof.
  induction vs as [|v vs IH]; simpl; [done|].
  intros [Hv Hvs]%andb_prop. rewrite Hv. simpl. by apply IH.
Qed.

Lemma find_unhashable_Some (vs : list json) :
  forallb hashable vs = false →
  ∃ v, List.find (fun v => negb (hashable v)) vs = Some v ∧ hashable v = false.
Proof.
  induction vs as [|v vs IH]; simpl; [done|].
  destruct (hashable v) eqn:Hv; simpl; [exact IH|]. intros _. by exists v.
Qed.

Lemma one_row_frame_ok (index_data : list (string * json))
    (cols : list string) (row : list json) :
  index_data ≠ [] → index_hashable index_data = true →
  existsb cell_overflows row = false →
  one_row_frame index_data cols row
  = Ok {| index_names := Dict.keys index_data;
          index := [Dict.values index_data];
          columns := cols;
          data := [row] |}.
Proof.
  intros Hne Hhash Hrow. unfold one_row_frame, MultiIndex_from_tuples.
  destruct index_data as [|kv index_data]; [done|].
  rewrite find_unhashable_None by done. simpl.
  unfold DataFrame_one_row. by rewrite Hrow.
Qed.

Lemma one_row_frame_inv (index_data : list (string * json))
    (cols : list string) (row : list json) (df : DataFrame) :
  one_row_frame index_data cols row = Ok df →
  index_hashable index_data = true
  ∧ df = {| index_names := Dict.keys index_data;
            index := [Dict.values index_data];
            columns := cols;
            data := [row] |}.
Proof.
  unfold one_row_frame, MultiIndex_from_tuples, index_hashable.
  destruct index_data as [|kv index_data]; [done|].
  destruct (forallb hashable (Dict.values (kv :: index_data))) eqn:Hhash.
  - rewrite find_unhashable_None by done. simpl. unfold DataFrame_one_row.
    destruct (existsb cell_overflows row); [done|]. by intros [= <-].
  - destruct (find_unhashable_Some _ Hhash) as (v & -> & _). done.
Qed.

Lemma one_row_frame_unhashable (index_data : list (string * json))
    (cols : list string) (row : list json) :
  index_hashable index_data = false →
  ∃ v, v ∈ Dict.values index_data ∧ hashable v = false
       ∧ one_row_frame index_data cols row = Raise (Exception (unhashable_type v)).
Proof.
  intros Hhash. unfold one_row_frame, MultiIndex_from_tuples.
  destruct index_data as [|kv index_data]; [done|].
  destruct (find_unhashable_Some _ Hhash) as (v & Hfind & Hv).
  exists v. rewrite Hfind. split; [|done].
  apply list_elem_of_In. by apply (find_some _ _ Hfind).
Qed.

Lemma int_of_match_inv (m : option (list string)) (n : Z) :
  int_of_match m = Ok n → n = count_of m ∧ digits_accepted m = true.
Proof.
  destruct m as [gs|]; simpl; [|by intros [= <-]].
  unfold int. destruct (int_max_str_digits <? _)%nat eqn:E; [done|].
  intros [= <-]. split; [done|]. apply Nat.leb_le. apply Nat.ltb_ge in E. lia.
Qed.

Lemma int_of_match_ok (m : option (list string)) :
  digits_accepted m = true → int_of_match m = Ok (count_of m).
Proof.
  destruct m as [gs|]; simpl; [|done]. intros H%Nat.leb_le.
  unfold int. destruct (Nat.ltb_spec int_max_str_digits (String.length (hd "" gs)));
    [lia|done].
Qed.

Lemma generate_counts_inv (read_text : result string)
    (index_data : list (string * json)) (df : DataFrame) :
  _generate_error_warning_counts_df read_text index_data = Ok df →
  ∃ err_str, read_text = Ok err_str
             ∧ index_hashable index_data = true
             ∧ df = message_counts index_data err_str.
Proof.
  unfold _generate_error_warning_counts_df.
  destruct read_text as [err_str|t]; simpl; [|done].
  destruct (int_of_match (Re.re_match severe_reg err_str)) as [s|] eqn:Es; [|done].
  destruct (int_of_match (Re.re_match warning_reg err_str)) as [w|] eqn:Ew; [|done].
  simpl. intros [Hhash ->]%one_row_frame_inv.
  apply int_of_match_inv in Es as [-> _]. apply int_of_match_inv in Ew as [-> _].
  by exists err_str.
Qed.

Lemma generate_counts_ok (index_data : list (string * json)) (err_str : string) :
  index_data ≠ [] → index_hashable index_data = true →
  counts_accepted err_str = true →
  _generate_error_warning_counts_df (Ok err_str) index_data
  = Ok (message_counts index_data err_str).
Proof.
  intros Hne Hhash Hacc. unfold counts_accepted in Hacc.
  apply andb_prop in Hacc as [[[Hs Hw]%andb_prop Hfs]%andb_prop Hfw].
  unfold _generate_error_warning_counts_df. simpl.
  rewrite (int_of_match_ok _ Hs), (int_of_match_ok _ Hw). simpl.
  rewrite one_row_frame_ok; [done..|]. simpl.
  apply negb_true_iff in Hfs, Hfw.
  unfold severe_ct, warning_ct in Hfs, Hfw. by rewrite Hfs, Hfw.
Qed.

Section SimulateFacts.
Variables (Sql Payload : Type).
Variable tabular_data :
  Sql -> list (string * string) -> list string ->
  gmap string (list string * list (list json)).
Variable serialize_df : DataFrame -> Payload.

Implicit Types (spec : SimulationSpecWithContext) (a : Attempt Sql).

Lemma postprocess_index_names sql index_data lookups cols name df :
  postprocess tabular_data sql index_data lookups cols !! name = Some df →
  index_names df = Dict.keys index_data.
Proof.
  unfold postprocess. rewrite lookup_fmap.
  destruct (tabular_data sql lookups cols !! name); simpl; [|done].
  by intros [= <-].
Qed.

Lemma run_and_collect_failure spec a e :
  idf_simulate a = Raise (Exception e) →
  index_hashable (_generate_index_data spec) = true →
  run_and_collect tabular_data spec a
  = Ok {[ "err" :=
            {| index_names := Dict.keys (_generate_index_data spec);
               index := [Dict.values (_generate_index_data spec)];
               columns := ["msg"];
               data := [[JStr (exc_str e)]] |} ]}.
Proof.
  intros He Hhash. unfold run_and_collect. rewrite He.
  rewrite one_row_frame_ok; [|apply index_data_not_empty|done..].
  simpl. by rewrite insert_empty.
Qed.

Lemma run_and_collect_failure_inv spec a e dfs :
  idf_simulate a = Raise (Exception e) →
  run_and_collect tabular_data spec a = Ok dfs →
  index_hashable (_generate_index_data spec) = true.
Proof.
  intros He. unfold run_and_collect. rewrite He.
  destruct (one_row_frame _ _ _) as [df|] eqn:E; [|done].
  by apply one_row_frame_inv in E as [Hhash _].
Qed.

Lemma run_and_collect_success spec a sql err_str :
  idf_simulate a = Ok tt → sql_open a = Ok sql →
  end_file_read_text a = Ok err_str →
  index_hashable (_generate_index_data spec) = true →
  counts_accepted err_str = true →
  run_and_collect tabular_data spec a
  = Ok (<["energyplus_message_counts" :=
            message_counts (_generate_index_data spec) err_str]>
          (postprocess tabular_data sql (_generate_index_data spec)
             [("AnnualBuildingUtilityPerformanceSummary", "End Uses")]
             ["Electricity"; "Natural Gas"; "Fuel Oil No 2"])).
Proof.
  intros He Hs Ht Hhash Hacc. unfold run_and_collect.
  rewrite He, Hs, Ht. cbn [mbind result_bind].
  rewrite generate_counts_ok; [done|apply index_data_not_empty|done..].
Qed.

Lemma run_and_collect_success_inv spec a dfs :
  idf_simulate a = Ok tt →
  run_and_collect tabular_data spec a = Ok dfs →
  ∃ sql err_str,
    sql_open a = Ok sql ∧ end_file_read_text a = Ok err_str
    ∧ index_hashable (_generate_index_data spec) = true
    ∧ dfs = <["energyplus_message_counts" :=
                message_counts (_generate_index_data spec) err_str]>
              (postprocess tabular_data sql (_generate_index_data spec)
                 [("AnnualBuildingUtilityPerformanceSummary", "End Uses")]
                 ["Electricity"; "Natural Gas"; "Fuel Oil No 2"]).
Proof.
  intros He. unfold run_and_collect. rewrite He.
  destruct (sql_open a) as [sql|]; simpl; [|done].
  destruct (_generate_error_warning_counts_df _ _) as [df|] eqn:E; [|done].
  apply generate_counts_inv in E as (err_str & Ht & Hhash & ->).
  simpl. intros [= <-]. by exists sql, err_str.
Qed.

Lemma simulate_of_run_and_collect spec a dfs :
  prepare a = Ok tt → run_and_collect tabular_data spec a = Ok dfs →
  simulate tabular_data serialize_df spec a = Ok (serialize_df_dict serialize_df dfs).
Proof. intros Hp Hr. unfold simulate. by rewrite Hp, Hr. Qed.

Lemma simulate_returns_inv spec a tables :
  prepare a = Ok tt →
  simulate tabular_data serialize_df spec a = Ok tables →
  ∃ dfs, run_and_collect tabular_data spec a = Ok dfs
         ∧ tables = serialize_df_dict serialize_df dfs.
Proof.
  intros Hp. unfold simulate. rewrite Hp. simpl.
  destruct (run_and_collect tabular_data spec a) as [dfs|]; [|done].
  intros [= <-]. by exists dfs.
Qed.

(** An interrupt of the engine call is not an [Exception]: it leaves
    the step. *)
Lemma simulate_interrupt_propagates spec a e :
  prepare a = Ok tt → idf_simulate a = Raise (BaseExceptionOnly e) →
  simulate tabular_data serialize_df spec a = Raise (BaseExceptionOnly e).
Proof.
  intros Hp He. unfold simulate, run_and_collect.
  by rewrite Hp, He.
Qed.

(** C2 (amended): when the engine call raises an exception [e] and every
    value of the index data can be hashed, the step does not re-raise it:
    it returns the serialised table set that holds exactly one table,
    named [err], of one row, whose column [msg] holds [str(e)] and whose
    index is the index data of the attempt. *)
Theorem engine_exception_gives_err_table spec a e
    (Hprepare : prepare a = Ok tt)
    (Hengine : idf_simulate a = Raise (Exception e))
    (Hhashable : index_hashable (_generate_index_data spec) = true) :
  simulate tabular_data serialize_df spec a
  = Ok (serialize_df_dict serialize_df
          {[ "err" :=
               {| index_names := Dict.keys (_generate_index_data spec);
                  index := [Dict.values (_generate_index_data spec)];
                  columns := ["msg"];
                  data := [[JStr (exc_str e)]] |} ]}).
Proof.
  apply simulate_of_run_and_collect; [done|].
  by apply run_and_collect_failure.
Qed.

(** C9: when the engine call succeeds and reading eplusout.end raises,
    the exception leaves the simulate step and no table set is
    returned; only what the engine call raises becomes an [err] table. *)
Theorem end_file_error_propagates spec a sql t
    (Hprepare : prepare a = Ok tt)
    (Hengine : idf_simulate a = Ok tt)
    (Hsql : sql_open a = Ok sql)
    (Hend : end_file_read_text a = Raise t) :
  simulate tabular_data serialize_df spec a = Raise t
  ∧ ∀ tables, simulate tabular_data serialize_df spec a ≠ Ok tables.
Proof.
  assert (H : simulate tabular_data serialize_df spec a = Raise t).
  { unfold simulate, run_and_collect.
    rewrite Hprepare, Hengine, Hsql. simpl.
    unfold _generate_error_warning_counts_df. by rewrite Hend. }
  split; [done|]. intros tables. by rewrite H.
Qed.

(** C8 (amended): when the engine call succeeds, the output store opens
    and eplusout.end is read, every value of the index data can be hashed
    and the two counts are accepted (at most 4300 digits, within the
    range of floats), the returned table set holds the diagnostics table
    under the name [energyplus_message_counts]; its single row has the
    two count columns [warnings] and [severe] and is indexed by the index
    data of the attempt. *)
Theorem success_has_energyplus_message_counts spec a sql err_str
    (Hprepare : prepare a = Ok tt)
    (Hengine : idf_simulate a = Ok tt)
    (Hsql : sql_open a = Ok sql)
    (Hend : end_file_read_text a = Ok err_str)
    (Hhashable : index_hashable (_generate_index_data spec) = true)
    (Hcounts : counts_accepted err_str = true) :
  let counts :=
    {| index_names := Dict.keys (_generate_index_data spec);
       index := [Dict.values (_generate_index_data spec)];
       columns := ["warnings"; "severe"];
       data := [[JInt (warning_ct err_str); JInt (severe_ct err_str)]] |} in
  ∃ dfs,
    run_and_collect tabular_data spec a = Ok dfs
    ∧ dfs !! "energyplus_message_counts" = Some counts
    ∧ simulate tabular_data serialize_df spec a = Ok (serialize_df_dict serialize_df dfs)
    ∧ serialize_df_dict serialize_df dfs !! "energyplus_message_counts"
      = Some (serialize_df counts).
Proof.
  intros counts.
  pose proof (run_and_collect_success spec a sql err_str
                Hengine Hsql Hend Hhashable Hcounts) as Hrun.
  eexists. split; [exact Hrun|].
  split; [by rewrite lookup_insert_eq|]. split.
  - by apply simulate_of_run_and_collect.
  - unfold serialize_df_dict. by rewrite lookup_fmap, lookup_insert_eq.
Qed.

(** C1: for one specification (which carries its run identifier),
    whenever a successful attempt and a failed attempt return their table
    sets, the index key names of every table of the first and those of
    the single [err] table of the second are the same list: the keys of
    the index data, that is the names of the fields that are not null
    together with the run-identifier key.  Both attempts do return when
    every value of the index data can be hashed, the store opens and the
    counts of eplusout.end are accepted. *)
Theorem index_keys_success_eq_failure spec (ok bad : Attempt Sql) e
    (Hprepare : prepare ok = Ok tt)
    (Hengine : idf_simulate ok = Ok tt)
    (Hprepare' : prepare bad = Ok tt)
    (Hengine' : idf_simulate bad = Raise (Exception e)) :
  (∀ tables_ok tables_bad,
     simulate tabular_data serialize_df spec ok = Ok tables_ok →
     simulate tabular_data serialize_df spec bad = Ok tables_bad →
     ∃ dfs_ok err_df,
       run_and_collect tabular_data spec ok = Ok dfs_ok
       ∧ tables_ok = serialize_df_dict serialize_df dfs_ok
       ∧ run_and_collect tabular_data spec bad = Ok {[ "err" := err_df ]}
       ∧ tables_bad = serialize_df_dict serialize_df {[ "err" := err_df ]}
       ∧ (∀ name df, dfs_ok !! name = Some df → index_names df = index_names err_df)
       ∧ index_names err_df = Dict.keys (_generate_index_data spec)
       ∧ (∀ k, k ∈ index_names err_df
               ↔ k ∈ non_null_field_names spec ∨ k = "workflow_run_id"))
  ∧ (index_hashable (_generate_index_data spec) = true →
     ∀ sql err_str,
       sql_open ok = Ok sql → end_file_read_text ok = Ok err_str →
       counts_accepted err_str = true →
       ∃ tables_ok tables_bad,
         simulate tabular_data serialize_df spec ok = Ok tables_ok
         ∧ simulate tabular_data serialize_df spec bad = Ok tables_bad).
Proof.
  split.
  - intros tables_ok tables_bad Hok Hbad.
    apply simulate_returns_inv in Hok as (dfs_ok & Hrun & ->); [|done].
    apply simulate_returns_inv in Hbad as (dfs_bad & Hrun' & ->); [|done].
    pose proof (run_and_collect_failure_inv spec bad e dfs_bad Hengine' Hrun') as Hhash.
    rewrite (run_and_collect_failure spec bad e Hengine' Hhash) in Hrun'.
    injection Hrun' as <-.
    destruct (run_and_collect_success_inv spec ok dfs_ok Hengine Hrun)
      as (sql & err_str & _ & _ & _ & Hdfs).
    eexists dfs_ok, _. split; [done|].
    split; [done|]. split; [by apply run_and_collect_failure|]. split; [done|].
    split.
    { intros name df. rewrite Hdfs. simpl.
      destruct (decide (name = "energyplus_message_counts")) as [->|Hne].
      - rewrite lookup_insert_eq. by intros [= <-].
      - rewrite lookup_insert_ne by done. apply postprocess_index_names. }
    split; [done|].
    intros k. simpl. unfold _generate_index_data. apply dict_keys_set.
  - intros Hhash sql err_str Hsql Hend Hacc. eexists _, _. split.
    + apply simulate_of_run_and_collect; [done|].
      by apply (run_and_collect_success spec ok sql err_str).
    + apply simulate_of_run_and_collect; [done|].
      by apply run_and_collect_failure.
Qed.

End SimulateFacts.

(** C2, as the specification words it, fails: with a field that holds a
    list, the handler of the engine's exception raises while it builds
    the index of the [err] table, and no table set is returned. *)
Lemma engine_exception_with_list_field_leaves_step :
  prepare Sample.failed = Ok tt
  ∧ idf_simulate Sample.failed = Raise (Exception Sample.boom)
  ∧ simulate Sample.no_tables id MoreSamples.with_list Sample.failed
    = Raise (Exception {| exc_type := "TypeError";
                          exc_str := "unhashable type: 'list'" |})
  ∧ ∀ tables,
      simulate Sample.no_tables id MoreSamples.with_list Sample.failed ≠ Ok tables.
Proof. repeat split; try reflexivity. intros tables. by vm_compute. Qed.

Lemma engine_exception_gives_err_table_witness :
  simulate Sample.no_tables id Sample.spec Sample.failed
  = Ok {[ "err" :=
            {| index_names := ["experiment_id"; "sort_index"; "idf_uri"; "epw_uri";
                               "workflow_run_id"];
               index := [[JStr "exp"; JInt 0; JStr "a.idf"; JStr "a.epw";
                          JStr "run-1"]];
               columns := ["msg"];
               data := [[JStr "EnergyPlus terminated"]] |} ]}.
Proof.
  rewrite (engine_exception_gives_err_table unit DataFrame Sample.no_tables id
             Sample.spec Sample.failed Sample.boom eq_refl eq_refl eq_refl).
  unfold serialize_df_dict. by rewrite map_fmap_singleton.
Defined.

Lemma end_file_error_propagates_witness :
  simulate Sample.no_tables id Sample.spec Sample.no_end_file
  = Raise (Exception Sample.missing).
Proof.
  exact (proj1 (end_file_error_propagates unit DataFrame Sample.no_tables id
                  Sample.spec Sample.no_end_file tt (Exception Sample.missing)
                  eq_refl eq_refl eq_refl eq_refl)).
Defined.

(** C8, as the specification words it, fails: the table set of a
    successful attempt has no table named [message_counts]. *)
Lemma success_has_no_table_named_message_counts :
  ∃ tables,
    idf_simulate Sample.succeeded = Ok tt
    ∧ simulate Sample.no_tables id Sample.spec Sample.succeeded = Ok tables
    ∧ tables !! "message_counts" = None.
Proof. eexists. split; [done|]. split; [by vm_compute|]. by vm_compute. Qed.

Lemma sample_counts_accepted : counts_accepted one_line_summary = true.
Proof. by vm_compute. Qed.

Lemma success_has_energyplus_message_counts_witness :
  ∃ tables,
    simulate Sample.no_tables id Sample.spec Sample.succeeded = Ok tables
    ∧ tables !! "energyplus_message_counts"
      = Some {| index_names := ["experiment_id"; "sort_index"; "idf_uri"; "epw_uri";
                                "workflow_run_id"];
                index := [[JStr "exp"; JInt 0; JStr "a.idf"; JStr "a.epw";
                           JStr "run-1"]];
                columns := ["warnings"; "severe"];
                data := [[JInt 7; JInt 3]] |}.
Proof.
  destruct (success_has_energyplus_message_counts unit DataFrame Sample.no_tables id
              Sample.spec Sample.succeeded tt one_line_summary
              eq_refl eq_refl eq_refl eq_refl eq_refl sample_counts_accepted)
    as (dfs & _ & _ & Hsim & Hcounts).
  exists (serialize_df_dict id dfs). split; [exact Hsim|].
  rewrite Hcounts. reflexivity.
Defined.

Lemma index_keys_success_eq_failure_witness :
  ∃ tables_ok tables_bad perf err_df,
    simulate MoreSamples.end_uses id Sample.spec Sample.succeeded = Ok tables_ok
    ∧ simulate MoreSamples.end_uses id Sample.spec Sample.failed = Ok tables_bad
    ∧ tables_ok !! "AnnualBuildingUtilityPerformanceSummary_End_Uses" = Some perf
    ∧ tables_bad !! "err" = Some err_df
    ∧ index_names perf = index_names err_df
    ∧ index_names err_df
      = ["experiment_id"; "sort_index"; "idf_uri"; "epw_uri"; "workflow_run_id"].
Proof.
  destruct (index_keys_success_eq_failure unit DataFrame MoreSamples.end_uses id
              Sample.spec Sample.succeeded Sample.failed Sample.boom
              eq_refl eq_refl eq_refl eq_refl) as [Hsame Hreturn].
  destruct (Hreturn eq_refl tt one_line_summary eq_refl eq_refl sample_counts_accepted)
    as (tables_ok & tables_bad & Hok & Hbad).
  destruct (Hsame tables_ok tables_bad Hok Hbad)
    as (dfs_ok & err_df & Hrun & -> & _ & -> & Hnames & Hkeys & _).
  rewrite (run_and_collect_success unit MoreSamples.end_uses Sample.spec
             Sample.succeeded tt one_line_summary eq_refl eq_refl eq_refl eq_refl
             sample_counts_accepted) in Hrun.
  injection Hrun as <-.
  eexists _, _, _, err_df. split; [exact Hok|]. split; [exact Hbad|].
  split.
  { unfold serialize_df_dict. rewrite lookup_fmap, lookup_insert_ne by done.
    unfold postprocess, MoreSamples.end_uses.
    rewrite lookup_fmap, lookup_singleton_eq. reflexivity. }
  split.
  { unfold serialize_df_dict. by rewrite lookup_fmap, lookup_singleton_eq. }
  split; [|exact Hkeys].
  apply (Hnames "AnnualBuildingUtilityPerformanceSummary_End_Uses").
  rewrite lookup_insert_ne by done.
  unfold postprocess, MoreSamples.end_uses.
  rewrite lookup_fmap, lookup_singleton_eq. reflexivity.
Defined.

(** ** The filtered merge (claims C5, C6, C7 and C10) *)

Section MergeFacts.
Implicit Types (idf : idfobjects) (obj : EpBunch) (objtype c : string).
Implicit Types (sequence : list EpBunch) (items : list (string * list EpBunch)).

Lemma merge_object_skipped objtype idf obj :
  is_skipped obj = true → merge_object objtype idf obj = idf.
Proof. intros Hs. unfold merge_object. by rewrite Hs. Qed.

Lemma merge_object_copied objtype idf obj :
  is_skipped obj = false → Str.upper (key obj) = objtype →
  merge_object objtype idf obj !!! objtype = [obj].
Proof.
  intros Hs <-. unfold merge_object, addidfobject, removeallidfobjects.
  rewrite Hs. simpl. by rewrite !lookup_total_insert_eq.
Qed.

Lemma merge_object_other objtype idf obj c :
  Str.upper (key obj) = objtype → c ≠ objtype →
  merge_object objtype idf obj !!! c = idf !!! c.
Proof.
  intros <- Hc. unfold merge_object. destruct (is_skipped obj); [done|].
  unfold addidfobject, removeallidfobjects. simpl.
  by rewrite !lookup_total_insert_ne.
Qed.

Lemma merge_sequence_foldl idf objtype sequence :
  merge_sequence idf objtype sequence = foldl (merge_object objtype) idf sequence.
Proof. by destruct sequence. Qed.

Lemma merge_sequence_other idf objtype sequence c :
  (∀ obj, obj ∈ sequence → Str.upper (key obj) = objtype) → c ≠ objtype →
  merge_sequence idf objtype sequence !!! c = idf !!! c.
Proof.
  rewrite merge_sequence_foldl. revert idf.
  induction sequence as [|o s IH]; intros idf Hk Hc; simpl; [done|].
  rewrite IH; [|intros; apply Hk; by right|done].
  apply merge_object_other; [apply Hk; by left|done].
Qed.

Lemma merge_sequence_skipped idf objtype sequence :
  (∀ obj, obj ∈ sequence → is_skipped obj = true) →
  merge_sequence idf objtype sequence = idf.
Proof.
  rewrite merge_sequence_foldl. revert idf.
  induction sequence as [|o s IH]; intros idf Hs; simpl; [done|].
  rewrite merge_object_skipped by (apply Hs; by left).
  apply IH. intros; apply Hs; by right.
Qed.

Lemma not_excluded_not_skipped obj :
  Str.upper (key obj) ∉ excluded_keys → is_skipped obj = false.
Proof. intros H. unfold is_skipped. by rewrite bool_decide_eq_false_2. Qed.

Lemma merge_sequence_last idf objtype sequence o :
  objtype ∉ excluded_keys →
  (∀ obj, obj ∈ sequence → Str.upper (key obj) = objtype) →
  last sequence = Some o →
  merge_sequence idf objtype sequence !!! objtype = [o].
Proof.
  rewrite merge_sequence_foldl. intros Hex Hk Hlast.
  destruct sequence as [|x s _] using rev_ind; [done|].
  rewrite last_snoc in Hlast. injection Hlast as ->.
  rewrite foldl_app. simpl.
  assert (Ho : Str.upper (key o) = objtype).
  { apply Hk, elem_of_app. right. by left. }
  apply merge_object_copied; [|done].
  apply not_excluded_not_skipped. by rewrite Ho.
Qed.

Lemma well_keyed_cons objtype sequence items :
  well_keyed ((objtype, sequence) :: items) →
  (∀ obj, obj ∈ sequence → Str.upper (key obj) = objtype) ∧ well_keyed items.
Proof.
  intros Hwf. split.
  - intros obj Hin. apply (Hwf objtype sequence obj); [by left|done].
  - intros t s obj Hin Hobj. apply (Hwf t s obj); [by right|done].
Qed.

Lemma well_keyed_app items1 items2 :
  well_keyed (items1 ++ items2) → well_keyed items1 ∧ well_keyed items2.
Proof.
  intros Hwf. split; intros t s obj Hin Hobj; apply (Hwf t s obj); try done;
    apply elem_of_app; auto.
Qed.

Lemma add_sizing_design_day_app idf items1 items2 :
  add_sizing_design_day idf (items1 ++ items2)
  = add_sizing_design_day (add_sizing_design_day idf items1) items2.
Proof. unfold add_sizing_design_day. apply foldl_app. Qed.

(** A category that the secondary document does not list is left as it
    is in the primary document. *)
Lemma add_sizing_design_day_other idf items c :
  well_keyed items → c ∉ items.*1 →
  add_sizing_design_day idf items !!! c = idf !!! c.
Proof.
  unfold add_sizing_design_day. revert idf.
  induction items as [|[t s] items IH]; intros idf Hwf Hc; simpl; [done|].
  apply well_keyed_cons in Hwf as [Hs Hwf].
  simpl in Hc. apply not_elem_of_cons in Hc as [Hne Hc].
  rewrite IH by done. by apply merge_sequence_other.
Qed.

(** The category of one entry of the secondary document after the whole
    merge is what the turn for that entry left. *)
Lemma add_sizing_design_day_at idf items objtype sequence :
  NoDup items.*1 → well_keyed items → (objtype, sequence) ∈ items →
  ∃ idf', add_sizing_design_day idf items !!! objtype
          = merge_sequence idf' objtype sequence !!! objtype
          ∧ (∀ obj, obj ∈ sequence → Str.upper (key obj) = objtype)
          ∧ idf' !!! objtype = idf !!! objtype.
Proof.
  intros Hnd Hwf Hin.
  apply list_elem_of_split in Hin as (l1 & l2 & ->).
  rewrite fmap_app, fmap_cons in Hnd. simpl in Hnd.
  apply NoDup_app in Hnd as (_ & Hl1 & [Hl2 _]%NoDup_cons).
  apply well_keyed_app in Hwf as [Hwf1 [Hs Hwf2]%well_keyed_cons].
  exists (add_sizing_design_day idf l1).
  rewrite add_sizing_design_day_app.
  change (add_sizing_design_day ?i ((objtype, sequence) :: l2))
    with (add_sizing_design_day (merge_sequence i objtype sequence) l2).
  rewrite add_sizing_design_day_other by done.
  split; [done|]. split; [done|].
  apply add_sizing_design_day_other; [done|].
  intros Hc. apply (Hl1 _ Hc). by left.
Qed.

Lemma excluded_rain_is_skipped obj file :
  Str.upper (key obj) ∈ excluded_keys →
  getattr obj "File_Name" "rain" = file →
  Str.endswith file "rain" = true →
  is_skipped obj = true.
Proof.
  intros Hcat Hfile Hrain. unfold is_skipped.
  by rewrite bool_decide_eq_true_2, Hfile, Hrain.
Qed.

(** C5 (amended): an object of the secondary document whose category is
    in the exclusion set and whose file reference does not end with
    [rain] is not skipped: every object of the category of that turn is
    removed from the primary document and the object is inserted, so that
    its category holds exactly that object. *)
Theorem excluded_object_with_other_file_is_copied obj file
    (Hcat : Str.upper (key obj) ∈ excluded_keys)
    (Hfile : Dict.get (fieldvalues obj) "File_Name" = Some file)
    (Hrain : Str.endswith file "rain" = false) :
  is_skipped obj = false
  ∧ ∀ idf objtype,
      merge_object objtype idf obj
      = addidfobject (removeallidfobjects idf objtype) obj
      ∧ (Str.upper (key obj) = objtype →
         merge_object objtype idf obj !!! objtype = [obj]).
Proof.
  assert (Hs : is_skipped obj = false).
  { unfold is_skipped, getattr. rewrite Hfile. simpl. rewrite Hrain.
    apply andb_false_r. }
  split; [done|]. intros idf objtype. split.
  - unfold merge_object. by rewrite Hs.
  - intros Hk. by apply merge_object_copied.
Qed.

(** C6: an object of the secondary document whose category is in the
    exclusion set and whose file reference ends with [rain] is skipped:
    its turn of the loop leaves the primary document, hence the objects
    of that category, unchanged (no removal, no copy); and when the
    secondary document holds only such objects in the category, the
    category of the primary document is the same after the merge. *)
Theorem excluded_rain_object_is_skipped obj file
    (Hcat : Str.upper (key obj) ∈ excluded_keys)
    (Hfile : Dict.get (fieldvalues obj) "File_Name" = Some file)
    (Hrain : Str.endswith file "rain" = true) :
  is_skipped obj = true
  ∧ (∀ idf objtype, merge_object objtype idf obj = idf)
  ∧ (∀ idf items objtype sequence,
       NoDup items.*1 → well_keyed items →
       (objtype, sequence) ∈ items → obj ∈ sequence →
       (∀ o, o ∈ sequence → is_skipped o = true) →
       add_sizing_design_day idf items !!! objtype = idf !!! objtype).
Proof.
  assert (Hs : is_skipped obj = true).
  { apply (excluded_rain_is_skipped obj file); [done| |done].
    unfold getattr. by rewrite Hfile. }
  split; [done|]. split.
  - intros idf objtype. by apply merge_object_skipped.
  - intros idf items objtype sequence Hnd Hwf Hin _ Hall.
    destruct (add_sizing_design_day_at idf items objtype sequence)
      as (idf' & -> & _ & <-); [done..|].
    by rewrite merge_sequence_skipped.
Qed.

(** C10: an object of an excluded category that has no [File_Name]
    attribute (its type declares no such field, and it holds none) gets
    the default [rain], which ends with [rain]: it is skipped and its
    turn of the loop leaves the primary document, hence the objects of
    that category, unchanged. *)
Theorem excluded_object_without_file_name_is_skipped obj
    (Hcat : Str.upper (key obj) ∈ excluded_keys)
    (Hundeclared : "File_Name" ∉ objls obj)
    (Hnone : Dict.get (fieldvalues obj) "File_Name" = None) :
  getattr obj "File_Name" "rain" = "rain"
  ∧ is_skipped obj = true
  ∧ (∀ idf objtype, merge_object objtype idf obj = idf)
  ∧ (∀ idf, add_sizing_design_day idf [(Str.upper (key obj), [obj])] = idf).
Proof.
  assert (Hg : getattr obj "File_Name" "rain" = "rain").
  { unfold getattr. by rewrite Hnone, bool_decide_eq_false_2. }
  assert (Hs : is_skipped obj = true).
  { by apply (excluded_rain_is_skipped obj "rain"). }
  split; [done|]. split; [done|]. split.
  - intros idf objtype. by apply merge_object_skipped.
  - intros idf. unfold add_sizing_design_day. simpl.
    by apply merge_object_skipped.
Qed.

(** C7: for a category outside the exclusion set that the secondary
    document lists with at least one object, the primary document holds
    after the merge exactly one object in that category, the last one of
    the sequence of the secondary document. *)
Theorem merge_last_object_wins idf items objtype sequence o
    (Hkeys : NoDup items.*1)
    (Hwf : well_keyed items)
    (Hin : (objtype, sequence) ∈ items)
    (Hcat : objtype ∉ excluded_keys)
    (Hlast : last sequence = Some o) :
  add_sizing_design_day idf items !!! objtype = [o].
Proof.
  destruct (add_sizing_design_day_at idf items objtype sequence)
    as (idf' & -> & Hs & _); [done..|].
  by apply merge_sequence_last.
Qed.

End MergeFacts.

(** The sample documents satisfy what the merge theorems ask of the
    secondary document. *)
Lemma sample_secondary_keys : NoDup Sample.secondary.*1.
Proof. by_evaluation. Qed.

Lemma sample_secondary_well_keyed : well_keyed Sample.secondary.
Proof.
  intros t s obj Hin Hobj. unfold Sample.secondary in Hin.
  repeat (apply elem_of_cons in Hin as [Hin|Hin]);
    try (by apply elem_of_nil in Hin); simplify_eq;
    repeat (apply elem_of_cons in Hobj as [Hobj|Hobj]);
    try (by apply elem_of_nil in Hobj); by subst.
Qed.

(** C5, as the specification words it, fails: a Schedule:File object of
    the secondary document whose file is not a rain file is not skipped,
    it replaces the objects of the primary document in that category. *)
Lemma schedule_file_with_other_file_replaces_category :
  Str.upper (key (Sample.schedule_file "loads" "loads.csv")) ∈ excluded_keys
  ∧ Str.endswith
      (getattr (Sample.schedule_file "loads" "loads.csv") "File_Name" "rain")
      "rain" = false
  ∧ add_sizing_design_day Sample.primary Sample.secondary_csv !!! "SCHEDULE:FILE"
    = [Sample.schedule_file "loads" "loads.csv"]
  ∧ add_sizing_design_day Sample.primary Sample.secondary_csv !!! "SCHEDULE:FILE"
    ≠ Sample.primary !!! "SCHEDULE:FILE".
Proof.
  split; [by_evaluation|].
  split; [by vm_compute|]. split; [by vm_compute|].
  vm_compute. discriminate.
Qed.

Lemma excluded_object_with_other_file_is_copied_witness :
  merge_object "SCHEDULE:FILE" Sample.primary (Sample.schedule_file "loads" "loads.csv")
    !!! "SCHEDULE:FILE"
  = [Sample.schedule_file "loads" "loads.csv"].
Proof.
  refine (proj2 (proj2 (excluded_object_with_other_file_is_copied
                          (Sample.schedule_file "loads" "loads.csv") "loads.csv"
                          _ eq_refl eq_refl) Sample.primary "SCHEDULE:FILE") eq_refl).
  by_evaluation.
Defined.

Lemma excluded_rain_object_is_skipped_witness :
  merge_object "SCHEDULE:FILE" Sample.primary (Sample.schedule_file "rain" "weather.rain")
  = Sample.primary
  ∧ add_sizing_design_day Sample.primary Sample.secondary !!! "SCHEDULE:FILE"
    = Sample.primary !!! "SCHEDULE:FILE".
Proof.
  assert (Hcat : Str.upper (key (Sample.schedule_file "rain" "weather.rain"))
                 ∈ excluded_keys).
  { by_evaluation. }
  destruct (excluded_rain_object_is_skipped
              (Sample.schedule_file "rain" "weather.rain") "weather.rain"
              Hcat eq_refl eq_refl) as (Hskip & Hturn & Hmerge).
  split; [apply Hturn|].
  apply (Hmerge Sample.primary Sample.secondary "SCHEDULE:FILE"
           [Sample.schedule_file "rain" "weather.rain"]).
  - apply sample_secondary_keys.
  - apply sample_secondary_well_keyed.
  - unfold Sample.secondary. do 2 right. left.
  - left.
  - intros o Ho. apply list_elem_of_singleton in Ho as ->. exact Hskip.
Defined.

Lemma excluded_object_without_file_name_is_skipped_witness :
  merge_object "SITE:PRECIPITATION" Sample.primary Sample.precipitation
  = Sample.primary.
Proof.
  refine (proj1 (proj2 (proj2 (excluded_object_without_file_name_is_skipped
                                 Sample.precipitation _ _ eq_refl)))
            Sample.primary "SITE:PRECIPITATION").
  - by_evaluation.
  - by_evaluation.
Defined.

Lemma merge_last_object_wins_witness :
  add_sizing_design_day Sample.primary Sample.secondary !!! "SIZINGPERIOD:DESIGNDAY"
  = [Sample.design_day "Ann Clg .4%"].
Proof.
  apply (merge_last_object_wins Sample.primary Sample.secondary
           "SIZINGPERIOD:DESIGNDAY"
           [Sample.design_day "Ann Htg 99.6%"; Sample.design_day "Ann Clg .4%"]).
  - apply sample_secondary_keys.
  - apply sample_secondary_well_keyed.
  - unfold Sample.secondary. right. left.
  - by_evaluation.
  - reflexivity.
Defined.

(** * Further properties of the module *)

(** ** The filtered merge as a whole *)

Section MergeFurther.
Implicit Types (idf : idfobjects) (obj o : EpBunch) (objtype c : string).
Implicit Types (sequence : list EpBunch) (items : list (string * list EpBunch)).

Lemma copied_snoc sequence obj :
  copied (sequence ++ [obj])
  = if is_skipped obj then copied sequence else copied sequence ++ [obj].
Proof.
  unfold copied. rewrite filter_app.
  destruct (is_skipped obj) eqn:Hs.
  - rewrite filter_cons_False by (by rewrite Hs). by rewrite filter_nil, app_nil_r.
  - by rewrite filter_cons_True, filter_nil.
Qed.

Lemma merge_sequence_category idf objtype sequence :
  (∀ obj, obj ∈ sequence → Str.upper (key obj) = objtype) →
  merge_sequence idf objtype sequence !!! objtype
  = match last (copied sequence) with
    | Some o => [o]
    | None => idf !!! objtype
    end.
Proof.
  rewrite merge_sequence_foldl.
  induction sequence as [|x s IH] using rev_ind; intros Hk; [done|].
  rewrite foldl_app, copied_snoc. simpl.
  assert (Hx : Str.upper (key x) = objtype).
  { apply Hk, elem_of_app. right. by left. }
  destruct (is_skipped x) eqn:Hs.
  - rewrite merge_object_skipped by done.
    apply IH. intros obj Hobj. apply Hk, elem_of_app. by left.
  - rewrite last_snoc. by apply merge_object_copied.
Qed.

Lemma merge_sequence_category_after idf items objtype sequence :
  NoDup items.*1 → well_keyed items → (objtype, sequence) ∈ items →
  add_sizing_design_day idf items !!! objtype
  = match last (copied sequence) with
    | Some o => [o]
    | None => idf !!! objtype
    end.
Proof.
  intros Hkeys Hwf Hin.
  destruct (add_sizing_design_day_at idf items objtype sequence)
    as (idf' & -> & Hs & <-); [done..|].
  by apply merge_sequence_category.
Qed.

(** X1: What a category of the primary document holds after the merge, for
    every category that the secondary document lists: the last object of
    the sequence that is not skipped, alone; or, when the sequence is
    empty or holds skipped objects only, what it held before. *)
Theorem merge_category_is_last_copied idf items objtype sequence
    (Hkeys : NoDup items.*1)
    (Hwf : well_keyed items)
    (Hin : (objtype, sequence) ∈ items) :
  add_sizing_design_day idf items !!! objtype
  = match last (copied sequence) with
    | Some o => [o]
    | None => idf !!! objtype
    end.
Proof.
  destruct (add_sizing_design_day_at idf items objtype sequence)
    as (idf' & -> & Hs & <-); [done..|].
  by apply merge_sequence_category.
Qed.

(** X2: A category that the secondary document does not list, or lists with
    an empty sequence, holds after the merge what it held before. *)
Theorem merge_leaves_unlisted_category idf items c
    (Hwf : well_keyed items)
    (Hc : ∀ sequence, (c, sequence) ∈ items → sequence = []) :
  add_sizing_design_day idf items !!! c = idf !!! c.
Proof.
  unfold add_sizing_design_day. revert idf.
  induction items as [|[t s] items IH]; intros idf; simpl; [done|].
  apply well_keyed_cons in Hwf as [Hs Hwf].
  rewrite IH; [|done|intros s' Hs'; apply Hc; by right].
  destruct (decide (c = t)) as [->|Hne].
  - rewrite (Hc s); [done|by left].
  - by apply merge_sequence_other.
Qed.

(** X3: A secondary document in which every object is skipped, an empty one
    among them, leaves the primary document as it is. *)
Theorem merge_of_skipped_objects_is_identity idf items
    (Hall : ∀ objtype sequence obj,
        (objtype, sequence) ∈ items → obj ∈ sequence → is_skipped obj = true) :
  add_sizing_design_day idf items = idf.
Proof.
  unfold add_sizing_design_day. revert idf.
  induction items as [|[t s] items IH]; intros idf; simpl; [done|].
  rewrite merge_sequence_skipped.
  - apply IH. intros t' s' obj Hin. apply (Hall t' s' obj). by right.
  - intros obj. apply (Hall t s obj). by left.
Qed.

Lemma merge_object_provenance objtype idf obj c o :
  o ∈ merge_object objtype idf obj !!! c →
  o ∈ idf !!! c ∨ (o = obj ∧ is_skipped o = false ∧ Str.upper (key o) = c).
Proof.
  unfold merge_object. destruct (is_skipped obj) eqn:Hs; [by left|].
  unfold addidfobject, removeallidfobjects. simpl.
  assert (Hrem : ∀ c', o ∈ <[objtype:=[]]> idf !!! c' → o ∈ idf !!! c').
  { intros c'. destruct (decide (objtype = c')) as [->|Hne].
    - rewrite lookup_total_insert_eq. by intros ?%elem_of_nil.
    - by rewrite lookup_total_insert_ne. }
  destruct (decide (Str.upper (key obj) = c)) as [<-|Hne].
  - rewrite lookup_total_insert_eq, elem_of_app, list_elem_of_singleton.
    intros [Ho| ->]; [left; by apply Hrem|by right].
  - rewrite lookup_total_insert_ne by done. left. by apply Hrem.
Qed.

(** X4: The merge brings in nothing but objects of the secondary document
    that pass the test, each into the category of its own key; an object
    that the test skips (a rain file) is in the primary document
    afterwards only if it was there before. *)
Theorem merge_adds_only_copied_objects idf items c o
    (Hin : o ∈ add_sizing_design_day idf items !!! c) :
  (o ∈ idf !!! c
   ∨ (is_skipped o = false ∧ Str.upper (key o) = c
      ∧ ∃ objtype sequence, (objtype, sequence) ∈ items ∧ o ∈ sequence))
  ∧ (is_skipped o = true → o ∈ idf !!! c).
Proof.
  assert (H : o ∈ idf !!! c
              ∨ (is_skipped o = false ∧ Str.upper (key o) = c
                 ∧ ∃ objtype sequence, (objtype, sequence) ∈ items ∧ o ∈ sequence)).
  { revert idf Hin. unfold add_sizing_design_day.
    induction items as [|[t s] items IH] using rev_ind; intros idf; simpl; [by left|].
    rewrite foldl_app. simpl. rewrite merge_sequence_foldl.
    set (idf1 := foldl _ idf items).
    assert (Hseq : ∀ s1 idf2, o ∈ foldl (merge_object t) idf2 s1 !!! c →
              o ∈ idf2 !!! c
              ∨ (is_skipped o = false ∧ Str.upper (key o) = c ∧ o ∈ s1)).
    { induction s1 as [|x s1 IHs] using rev_ind; intros idf2; simpl; [by left|].
      rewrite foldl_app. simpl.
      intros [Ho|(-> & Hs & Hk)]%merge_object_provenance.
      - apply IHs in Ho as [Ho|(Hs & Hk & Ho)]; [by left|].
        right. repeat split; try done. apply elem_of_app. by left.
      - right. repeat split; try done. apply elem_of_app. right. by left. }
    intros [Ho|(Hs & Hk & Ho)]%Hseq.
    - apply IH in Ho as [Ho|(Hs & Hk & t' & s' & Hin' & Ho)]; [by left|].
      right. repeat split; try done. exists t', s'. split; [|done].
      apply elem_of_app. by left.
    - right. repeat split; try done. exists t, s. split; [|done].
      apply elem_of_app. right. by left. }
  split; [exact H|].
  intros Hs. destruct H as [H|(Hs' & _)]; [done|congruence].
Qed.

(** X5: Merging the same secondary document a second time changes no
    category. *)
Theorem merge_twice_is_merge_once idf items c
    (Hkeys : NoDup items.*1)
    (Hwf : well_keyed items) :
  add_sizing_design_day (add_sizing_design_day idf items) items !!! c
  = add_sizing_design_day idf items !!! c.
Proof.
  destruct (decide (c ∈ items.*1)) as [Hc|Hc].
  - apply list_elem_of_fmap in Hc as [[t s] [-> Hin]]. simpl.
    rewrite (merge_sequence_category_after (add_sizing_design_day idf items) items t s)
      by done.
    rewrite (merge_sequence_category_after idf items t s) by done.
    by destruct (last (copied s)).
  - by rewrite !add_sizing_design_day_other.
Qed.

(** X6: The order in which the dictionary of the secondary document yields
    its categories has no bearing on what a category holds after the
    merge. *)
Theorem merge_does_not_depend_on_item_order idf items items' c
    (Hperm : items ≡ₚ items')
    (Hkeys : NoDup items.*1)
    (Hwf : well_keyed items) :
  add_sizing_design_day idf items !!! c = add_sizing_design_day idf items' !!! c.
Proof.
  assert (Hkeys' : NoDup items'.*1) by (by rewrite <- Hperm).
  assert (Hwf' : well_keyed items').
  { intros t s obj Hin. apply (Hwf t s obj). by rewrite Hperm. }
  destruct (decide (c ∈ items.*1)) as [Hc|Hc].
  - apply list_elem_of_fmap in Hc as [[t s] [-> Hin]]. simpl.
    rewrite (merge_sequence_category_after idf items t s) by done.
    rewrite (merge_sequence_category_after idf items' t s); [done..|].
    by rewrite <- Hperm.
  - rewrite add_sizing_design_day_other by done.
    rewrite add_sizing_design_day_other; [done..|]. by rewrite <- Hperm.
Qed.

End MergeFurther.

(** Closed sample documents are well keyed, by inspection of their
    entries. *)
Ltac well_keyed_by_cases :=
  let t := fresh "t" in let s := fresh "s" in let obj := fresh "obj" in
  let Hin := fresh "Hin" in let Hobj := fresh "Hobj" in
  intros t s obj Hin Hobj;
  repeat (apply elem_of_cons in Hin as [Hin|Hin]);
  try (by apply elem_of_nil in Hin); simplify_eq;
  repeat (apply elem_of_cons in Hobj as [Hobj|Hobj]);
  try (by apply elem_of_nil in Hobj); by subst.

Lemma mixed_keys : NoDup MoreSamples.mixed.*1.
Proof. by_evaluation. Qed.

Lemma mixed_well_keyed : well_keyed MoreSamples.mixed.
Proof. unfold MoreSamples.mixed. well_keyed_by_cases. Qed.

Lemma merge_category_is_last_copied_witness :
  add_sizing_design_day Sample.primary MoreSamples.mixed !!! "SCHEDULE:FILE"
  = [Sample.schedule_file "loads" "loads.csv"].
Proof.
  apply (merge_category_is_last_copied Sample.primary MoreSamples.mixed
           "SCHEDULE:FILE"
           [Sample.schedule_file "loads" "loads.csv";
            Sample.schedule_file "rain" "weather.rain"]).
  - apply mixed_keys.
  - apply mixed_well_keyed.
  - left.
Defined.

Lemma merge_leaves_unlisted_category_witness :
  add_sizing_design_day Sample.primary Sample.secondary !!! "SITE:PRECIPITATION"
  = Sample.primary !!! "SITE:PRECIPITATION".
Proof.
  apply (merge_leaves_unlisted_category Sample.primary Sample.secondary
           "SITE:PRECIPITATION" sample_secondary_well_keyed).
  intros sequence Hin. unfold Sample.secondary in Hin.
  repeat (apply elem_of_cons in Hin as [Hin|Hin]);
    try (by apply elem_of_nil in Hin); by simplify_eq.
Defined.

Lemma merge_of_skipped_objects_is_identity_witness :
  add_sizing_design_day Sample.primary MoreSamples.rain_only = Sample.primary.
Proof.
  apply (merge_of_skipped_objects_is_identity Sample.primary MoreSamples.rain_only).
  intros t s obj Hin Hobj. unfold MoreSamples.rain_only in Hin.
  repeat (apply elem_of_cons in Hin as [Hin|Hin]);
    try (by apply elem_of_nil in Hin); simplify_eq;
    repeat (apply elem_of_cons in Hobj as [Hobj|Hobj]);
    try (by apply elem_of_nil in Hobj); by subst.
Defined.

Lemma merge_adds_only_copied_objects_witness :
  (Sample.design_day "Ann Clg .4%" ∈ Sample.primary !!! "SIZINGPERIOD:DESIGNDAY"
   ∨ (is_skipped (Sample.design_day "Ann Clg .4%") = false
      ∧ Str.upper (key (Sample.design_day "Ann Clg .4%")) = "SIZINGPERIOD:DESIGNDAY"
      ∧ ∃ objtype sequence,
          (objtype, sequence) ∈ Sample.secondary
          ∧ Sample.design_day "Ann Clg .4%" ∈ sequence))
  ∧ (is_skipped (Sample.design_day "Ann Clg .4%") = true →
     Sample.design_day "Ann Clg .4%" ∈ Sample.primary !!! "SIZINGPERIOD:DESIGNDAY").
Proof.
  apply (merge_adds_only_copied_objects Sample.primary Sample.secondary).
  vm_compute. left.
Defined.

Lemma merge_twice_is_merge_once_witness :
  add_sizing_design_day (add_sizing_design_day Sample.primary MoreSamples.mixed)
    MoreSamples.mixed !!! "SCHEDULE:FILE"
  = add_sizing_design_day Sample.primary MoreSamples.mixed !!! "SCHEDULE:FILE".
Proof.
  apply (merge_twice_is_merge_once Sample.primary MoreSamples.mixed "SCHEDULE:FILE"
           mixed_keys mixed_well_keyed).
Defined.

Lemma merge_does_not_depend_on_item_order_witness :
  add_sizing_design_day Sample.primary MoreSamples.mixed !!! "SCHEDULE:FILE"
  = add_sizing_design_day Sample.primary (reverse MoreSamples.mixed) !!! "SCHEDULE:FILE".
Proof.
  apply (merge_does_not_depend_on_item_order Sample.primary MoreSamples.mixed
           (reverse MoreSamples.mixed) "SCHEDULE:FILE").
  - symmetry. apply reverse_Permutation.
  - apply mixed_keys.
  - apply mixed_well_keyed.
Defined.

(** ** Which objects the merge skips *)

Lemma endswith_unfold (s suffix : string) :
  Str.endswith s suffix
  = if String.eqb s suffix then true
    else match s with
         | EmptyString => false
         | String _ s' => Str.endswith s' suffix
         end.
Proof. by destruct s. Qed.

Lemma endswith_spec (s suffix : string) :
  Str.endswith s suffix = true ↔ ∃ p, s = p +:+ suffix.
Proof.
  split.
  - induction s as [|c s IH]; rewrite endswith_unfold.
    + destruct (String.eqb_spec "" suffix) as [<-|]; [by exists ""|done].
    + destruct (String.eqb_spec (String c s) suffix) as [<-|_]; [by exists ""|].
      intros [p ->]%IH. by exists (String c p).
  - intros [p ->]. induction p as [|c p IH]; rewrite endswith_unfold.
    + by rewrite String.eqb_refl.
    + destruct (String.eqb _ suffix); [done|]. exact IH.
Qed.

(** X7: The test of lines 179-183 skips exactly the objects whose key, in
    upper case, is one of the three excluded categories and which either
    have no [File_Name] attribute (their type declares no such field and
    they hold none) or hold a [File_Name] whose text ends with [rain]. *)
Theorem skipped_objects_characterised (obj : EpBunch) :
  is_skipped obj = true
  ↔ Str.upper (key obj) ∈ excluded_keys
    ∧ (Dict.get (fieldvalues obj) "File_Name" = None ∧ "File_Name" ∉ objls obj
       ∨ ∃ p, Dict.get (fieldvalues obj) "File_Name" = Some (p +:+ "rain")).
Proof.
  unfold is_skipped, getattr.
  rewrite andb_true_iff, bool_decide_eq_true, endswith_spec.
  destruct (Dict.get (fieldvalues obj) "File_Name") as [f|]; simpl.
  - split.
    + intros [Hk [p ->]]. split; [done|]. right. by exists p.
    + intros [Hk [[? _]|[p [= ->]]]]; [done|]. split; [done|]. by exists p.
  - destruct (decide ("File_Name" ∈ objls obj)) as [Hin|Hin].
    + rewrite bool_decide_eq_true_2 by done. split.
      * intros [_ [p Hp]]. by destruct p.
      * intros [_ [[_ ?]|[p ?]]]; done.
    + rewrite bool_decide_eq_false_2 by done. split.
      * intros [Hk _]. split; [done|]. by left.
      * intros [Hk _]. split; [done|]. by exists "".
Qed.

(** X21: An object whose type declares a [File_Name] field and which
    holds no value for it (a Schedule:File cut short) is not skipped:
    [getattr] answers with the empty text, which does not end with
    [rain], and the object replaces the objects of its category. *)
Theorem object_with_unheld_file_name_is_copied (obj : EpBunch)
    (Hdeclared : "File_Name" ∈ objls obj)
    (Hnone : Dict.get (fieldvalues obj) "File_Name" = None) :
  getattr obj "File_Name" "rain" = ""
  ∧ is_skipped obj = false
  ∧ ∀ (idf : idfobjects) (objtype : string),
      Str.upper (key obj) = objtype →
      merge_object objtype idf obj !!! objtype = [obj].
Proof.
  assert (Hg : getattr obj "File_Name" "rain" = "").
  { unfold getattr. by rewrite Hnone, bool_decide_eq_true_2. }
  assert (Hs : is_skipped obj = false).
  { unfold is_skipped. rewrite Hg. apply andb_false_r. }
  split; [done|]. split; [done|].
  intros idf objtype Hk. by apply merge_object_copied.
Qed.

Lemma object_with_unheld_file_name_is_copied_witness :
  add_sizing_design_day Sample.primary
    [("SCHEDULE:FILE", [MoreSamples.truncated_schedule])] !!! "SCHEDULE:FILE"
  = [MoreSamples.truncated_schedule].
Proof.
  refine (proj2 (proj2 (object_with_unheld_file_name_is_copied
                          MoreSamples.truncated_schedule _ eq_refl))
            Sample.primary "SCHEDULE:FILE" eq_refl).
  by_evaluation.
Defined.

(** ** The index data *)

Section DictFurther.
Context {V : Type}.
Implicit Types (d : list (string * V)) (k : string) (v : V).

Lemma dict_keys_set_in d k v :
  k ∈ Dict.keys d → Dict.keys (Dict.set d k v) = Dict.keys d.
Proof.
  unfold Dict.keys.
  induction d as [|[k' v'] d IH]; simpl; [by intros ?%elem_of_nil|].
  destruct (String.eqb_spec k' k) as [->|Hne]; [done|].
  intros [?|Hin]%elem_of_cons; [congruence|]. simpl. f_equal. by apply IH.
Qed.

Lemma dict_get_set_ne d k k' v :
  k ≠ k' → Dict.get (Dict.set d k v) k' = Dict.get d k'.
Proof.
  intros Hne. induction d as [|[k0 v0] d IH]; simpl.
  - by destruct (String.eqb_spec k k').
  - destruct (String.eqb_spec k0 k) as [->|Hk]; simpl.
    + by destruct (String.eqb_spec k k').
    + by rewrite IH.
Qed.

Lemma dict_elem_of_set d k v x :
  x ∈ Dict.set d k v → x = (k, v) ∨ x ∈ d.
Proof.
  induction d as [|[k0 v0] d IH]; simpl.
  - intros ?%list_elem_of_singleton. by left.
  - destruct (String.eqb_spec k0 k) as [->|Hk].
    + intros [->|Hin]%elem_of_cons; [by left|]. right. by right.
    + intros [->|Hin]%elem_of_cons; [right; by left|].
      apply IH in Hin as [->|Hin]; [by left|]. right. by right.
Qed.

Lemma dict_keys_set_NoDup d k v :
  NoDup (Dict.keys d) → NoDup (Dict.keys (Dict.set d k v)).
Proof.
  intros Hnd. destruct (decide (k ∈ Dict.keys d)) as [Hin|Hin].
  - by rewrite dict_keys_set_in.
  - rewrite dict_set_fresh by done. unfold Dict.keys in *.
    rewrite fmap_app. apply NoDup_app. split; [done|]. split.
    + intros x Hx ->%list_elem_of_singleton. done.
    + apply NoDup_singleton.
Qed.
End DictFurther.

(** X8: Whatever the specification holds, the index data gives the run
    identifier under [workflow_run_id], and under every other key what
    the dump of the specification gives. *)
Theorem index_data_lookup (spec : SimulationSpecWithContext) :
  Dict.get (_generate_index_data spec) "workflow_run_id"
  = Some (JStr (workflow_run_id (hcontext spec)))
  ∧ ∀ k, k ≠ "workflow_run_id" →
         Dict.get (_generate_index_data spec) k
         = Dict.get (model_dump_exclude_none spec) k.
Proof.
  unfold _generate_index_data. split; [apply dict_get_set|].
  intros k Hk. by apply dict_get_set_ne.
Qed.

Lemma index_data_lookup_witness :
  Dict.get (_generate_index_data Sample.spec) "idf_uri" = Some (JStr "a.idf").
Proof.
  rewrite (proj2 (index_data_lookup Sample.spec) "idf_uri"); [reflexivity|].
  discriminate.
Defined.

(** X9: When the specification has a field named [workflow_run_id] that is
    not null, the index data has no key more than the dump: the field
    keeps its place and takes the run identifier as its value. *)
Theorem index_data_overwrites_field_of_same_name
    (spec : SimulationSpecWithContext)
    (Hclash : "workflow_run_id" ∈ non_null_field_names spec) :
  Dict.keys (_generate_index_data spec) = non_null_field_names spec
  ∧ Dict.get (_generate_index_data spec) "workflow_run_id"
    = Some (JStr (workflow_run_id (hcontext spec))).
Proof.
  unfold _generate_index_data. split; [|apply dict_get_set].
  by apply dict_keys_set_in.
Qed.

Lemma index_data_overwrites_field_of_same_name_witness :
  Dict.keys (_generate_index_data MoreSamples.clashing)
  = ["workflow_run_id"; "sort_index"]
  ∧ Dict.get (_generate_index_data MoreSamples.clashing) "workflow_run_id"
    = Some (JStr "run-2").
Proof.
  apply (index_data_overwrites_field_of_same_name MoreSamples.clashing).
  vm_compute. left.
Defined.

Lemma dict_elem_of_set_other {V : Type} (d : list (string * V)) (k : string) (v : V)
    (x : string * V) :
  x ∈ d → fst x ≠ k → x ∈ Dict.set d k v.
Proof.
  intros Hin Hne. induction d as [|[k0 v0] d IH]; simpl; [by apply elem_of_nil in Hin|].
  apply elem_of_cons in Hin as [->|Hin].
  - simpl in Hne. destruct (String.eqb_spec k0 k) as [->|_]; [done|]. by left.
  - destruct (String.eqb_spec k0 k) as [->|_]; right; [done|]. by apply IH.
Qed.

(** X10: A value of the index data is null only for a float field that
    is infinite or not a number, which the dump keeps and writes as
    [None]; and every such field shows up so.  No field that is [None]
    itself has an entry. *)
Theorem index_data_null_iff_non_finite_float (spec : SimulationSpecWithContext)
    (k : string)
    (Hk : k ≠ "workflow_run_id") :
  (k, JNull) ∈ _generate_index_data spec
  ↔ ∃ bits, (k, JFloat bits) ∈ fields spec ∧ is_inf_nan bits = true.
Proof.
  unfold _generate_index_data, model_dump_exclude_none. split.
  - intros [Heq|Hin]%dict_elem_of_set; [by inversion Heq|].
    apply list_elem_of_fmap in Hin as ([k' v'] & Heq & Hin).
    cbn [fst snd] in Heq. injection Heq as -> Hv.
    apply list_elem_of_filter in Hin as [Hnn Hin]. cbn [snd] in Hnn.
    destruct v' as [| | |bits| | |]; cbn [json_mode] in Hv;
      try discriminate Hv; [by destruct Hnn|].
    exists bits. split; [done|].
    destruct (is_inf_nan bits); [done|discriminate Hv].
  - intros (bits & Hin & Hbits). apply dict_elem_of_set_other; [|done].
    apply list_elem_of_fmap. exists (k, JFloat bits). split.
    + cbn [fst snd json_mode]. by rewrite Hbits.
    + apply list_elem_of_filter. split; [exact I|done].
Qed.

Lemma index_data_null_iff_non_finite_float_witness :
  ("ratio", JNull) ∈ _generate_index_data MoreSamples.with_nan.
Proof.
  apply (index_data_null_iff_non_finite_float MoreSamples.with_nan "ratio");
    [discriminate|].
  exists 9221120237041090560. split; [|by vm_compute].
  unfold MoreSamples.with_nan. cbn [fields]. right. left.
Defined.

(** X11: When the field names of the specification are distinct, so are the
    keys of the index data: they can name the levels of an index. *)
Theorem index_data_keys_distinct (spec : SimulationSpecWithContext)
    (Hnames : NoDup (Dict.keys (fields spec))) :
  NoDup (Dict.keys (_generate_index_data spec)).
Proof.
  unfold _generate_index_data. apply dict_keys_set_NoDup.
  eapply sublist_NoDup; [exact Hnames|].
  apply (non_null_field_names_order spec).
Qed.

Lemma index_data_keys_distinct_witness :
  NoDup (Dict.keys (_generate_index_data Sample.spec)).
Proof. apply index_data_keys_distinct. by_evaluation. Defined.

(** X12: The keys of the index data depend on nothing but the names of the
    fields that are not null: two specifications that agree on these have
    the same keys, whatever the values of the fields and the run
    identifiers. *)
Theorem index_keys_depend_on_non_null_names (spec1 spec2 : SimulationSpecWithContext)
    (Hnames : non_null_field_names spec1 = non_null_field_names spec2) :
  Dict.keys (_generate_index_data spec1) = Dict.keys (_generate_index_data spec2).
Proof.
  unfold _generate_index_data, non_null_field_names in *.
  set (d1 := model_dump_exclude_none spec1) in *.
  set (d2 := model_dump_exclude_none spec2) in *.
  destruct (decide ("workflow_run_id" ∈ Dict.keys d1)) as [Hin|Hin].
  - rewrite (dict_keys_set_in d1) by done.
    rewrite (dict_keys_set_in d2) by (by rewrite <- Hnames). done.
  - rewrite (dict_set_fresh d1) by done.
    rewrite (dict_set_fresh d2) by (by rewrite <- Hnames).
    unfold Dict.keys in *. rewrite !fmap_app. by rewrite Hnames.
Qed.

Lemma index_keys_depend_on_non_null_names_witness :
  Dict.keys (_generate_index_data Sample.spec)
  = Dict.keys (_generate_index_data
                 {| fields := [("experiment_id", JStr "other"); ("sort_index", JInt 7);
                               ("idf_uri", JStr "b.idf"); ("epw_uri", JStr "b.epw")];
                    hcontext := {| workflow_run_id := "run-9" |} |}).
Proof. apply index_keys_depend_on_non_null_names. reflexivity. Defined.

(** X13: A field that is set in one specification and null or absent in
    another gives the two attempts different index keys. *)
Theorem index_keys_differ_with_null_field (spec1 spec2 : SimulationSpecWithContext)
    (k : string)
    (Hk : k ≠ "workflow_run_id")
    (Hset : k ∈ non_null_field_names spec1)
    (Hnull : k ∉ non_null_field_names spec2) :
  Dict.keys (_generate_index_data spec1) ≠ Dict.keys (_generate_index_data spec2).
Proof.
  intros Heq.
  assert (H1 : k ∈ Dict.keys (_generate_index_data spec1)).
  { unfold _generate_index_data. apply dict_keys_set. by left. }
  rewrite Heq in H1. unfold _generate_index_data in H1.
  apply dict_keys_set in H1 as [H1|H1]; done.
Qed.

Lemma index_keys_differ_with_null_field_witness :
  Dict.keys (_generate_index_data MoreSamples.with_ddy)
  ≠ Dict.keys (_generate_index_data Sample.spec).
Proof.
  apply (index_keys_differ_with_null_field MoreSamples.with_ddy Sample.spec "ddy_uri").
  - discriminate.
  - vm_compute. do 4 right. left.
  - vm_compute. intros H.
    repeat (apply elem_of_cons in H as [H|H]; [discriminate H|]).
    by apply elem_of_nil in H.
Defined.

(** ** What the two patterns read *)

Section MatcherFacts.
Context {R : Type}.
Implicit Types (a : Re.cls) (k : string → option R) (s l : string) (r : R).

Lemma star_split a k s r :
  Re.star a k s = Some r →
  ∃ l s', s = l +:+ s' ∧ all_chars (Re.cls_match a) l = true ∧ k s' = Some r.
Proof.
  induction s as [|c s IH]; simpl.
  - intros H. by exists "", "".
  - destruct (Re.cls_match a c) eqn:Hc; [|intros H; by exists "", (String c s)].
    destruct (Re.star a k s) as [r'|] eqn:E; [|intros H; by exists "", (String c s)].
    intros [= ->]. destruct (IH eq_refl) as (l & s' & -> & Hl & Hk).
    exists (String c l), s'. simpl. by rewrite Hc, Hl.
Qed.

Lemma star_complete a k l s :
  all_chars (Re.cls_match a) l = true → is_Some (k s) →
  is_Some (Re.star a k (l +:+ s)).
Proof.
  induction l as [|c l IH]; simpl; intros Hl Hk.
  - destruct s as [|c s]; simpl; [done|].
    destruct (Re.cls_match a c); [|done]. by destruct (Re.star a k s).
  - apply andb_prop in Hl as [Hc Hl]. rewrite Hc.
    destruct (IH Hl Hk) as [r Hr]. rewrite Hr. by eauto.
Qed.

Lemma star_only_here a k s :
  (∀ l s', s = l +:+ s' → l ≠ "" → all_chars (Re.cls_match a) l = true →
           k s' = None) →
  Re.star a k s = k s.
Proof.
  induction s as [|c s IH]; simpl; intros Hlater; [done|].
  destruct (Re.cls_match a c) eqn:Hc; [|done].
  rewrite IH.
  - rewrite (Hlater (String c "") s); try done. simpl. by rewrite Hc.
  - intros l s' -> Hl Hall. apply (Hlater (String c l) s'); [done..|].
    simpl. by rewrite Hc, Hall.
Qed.

Lemma star_last a k l s r :
  all_chars (Re.cls_match a) l = true → k s = Some r →
  (∀ l' s', s = l' +:+ s' → l' ≠ "" → all_chars (Re.cls_match a) l' = true →
            k s' = None) →
  Re.star a k (l +:+ s) = Some r.
Proof.
  induction l as [|c l IH]; simpl; intros Hl Hk Hlater.
  - by rewrite star_only_here.
  - apply andb_prop in Hl as [Hc Hl]. rewrite Hc. by rewrite IH.
Qed.

Lemma star_always a s r : Re.star a (fun _ => Some r) s = Some r.
Proof.
  induction s as [|c s IH]; simpl; [done|].
  destruct (Re.cls_match a c); [|done]. by rewrite IH.
Qed.
End MatcherFacts.

Lemma go_lit (w s : string) (gs : list string) k :
  Re.go (Re.lit w) (w +:+ s) gs k = k s gs.
Proof.
  induction w as [|c w IH]; [done|].
  change (String c w +:+ s) with (String c (w +:+ s)).
  cbn [Re.go Re.lit Re.cls_match]. by rewrite Ascii.eqb_refl.
Qed.

Lemma go_lit_some (w s : string) (gs : list string) k out :
  Re.go (Re.lit w) s gs k = Some out → ∃ s', s = w +:+ s' ∧ k s' gs = Some out.
Proof.
  revert s. induction w as [|c w IH]; cbn [Re.go Re.lit Re.cls_match]; intros s H.
  - by exists s.
  - destruct s as [|c' s]; [done|].
    destruct (Ascii.eqb_spec c' c) as [->|]; [|done].
    apply IH in H as (s' & -> & H). by exists s'.
Qed.

Lemma string_length_app (l s : string) :
  String.length (l +:+ s) = (String.length l + String.length s)%nat.
Proof. induction l as [|c l IH]; simpl; [done|]. by rewrite IH. Qed.

Lemma consumed_app (l s : string) : Re.consumed (l +:+ s) s = l.
Proof.
  unfold Re.consumed. rewrite string_length_app, Nat.add_sub.
  induction l as [|c l IH]; simpl; [by destruct s|]. by rewrite IH.
Qed.

Lemma space_is_no_digit (c : ascii) : Re.is_space c = true → Re.is_digit c = false.
Proof. destruct c as [[] [] [] [] [] [] [] []]; by vm_compute. Qed.

Lemma digit_value_nonneg (c : ascii) : Re.is_digit c = true → (0 <= Str.digit_value c)%Z.
Proof. destruct c as [[] [] [] [] [] [] [] []]; by vm_compute. Qed.

Lemma int_from_nonneg (digits : string) (acc : Z) :
  (0 <= acc)%Z → all_chars Re.is_digit digits = true →
  (0 <= Str.int_from acc digits)%Z.
Proof.
  revert acc. induction digits as [|c ds IH]; simpl; intros acc Hacc Hds; [done|].
  apply andb_prop in Hds as [Hc Hds]. apply IH; [|done].
  pose proof (digit_value_nonneg c Hc). lia.
Qed.

(** The patterns are [.*] followed by [count_here]. *)
Lemma severe_reg_unfold :
  severe_reg = Re.Seq (Re.Star Re.Dot) (count_here "Severe Errors").
Proof. reflexivity. Qed.

Lemma warning_reg_unfold :
  warning_reg = Re.Seq (Re.Star Re.Dot) (count_here "Warning").
Proof. reflexivity. Qed.

(** What [count_here] matches at the start of a text, and its group. *)
Lemma count_here_some (word s : string) (gs : list string) :
  Re.re_match (count_here word) s = Some gs →
  ∃ digits, begins_with_count word digits s ∧ gs = [digits].
Proof.
  unfold Re.re_match, count_here. cbn [Re.go Re.cls_match]. intros H.
  destruct s as [|c1 s2]; [done|]. destruct (Re.is_space c1) eqn:Hc1; [|done].
  destruct s2 as [|d s3]; [done|]. destruct (Re.is_digit d) eqn:Hd; [|done].
  apply star_split in H as (ds & s4 & -> & Hds & H).
  destruct s4 as [|c2 s5]; [done|]. destruct (Re.is_space c2) eqn:Hc2; [|done].
  apply go_lit_some in H as (rest & -> & H).
  apply star_some in H as [_ [= <-]].
  exists (String d ds). split.
  - exists c1, c2, rest. repeat split; try done. simpl. by rewrite Hd.
  - simpl. f_equal.
    change (String d (ds +:+ String c2 (word +:+ rest)))
      with (String d ds +:+ String c2 (word +:+ rest)).
    apply consumed_app.
Qed.

Lemma count_here_exact (word digits s : string) :
  begins_with_count word digits s →
  Re.re_match (count_here word) s = Some [digits].
Proof.
  intros (c1 & c2 & rest & -> & Hc1 & Hne & Hds & Hc2).
  destruct digits as [|d ds]; [done|]. simpl in Hds.
  apply andb_prop in Hds as [Hd Hds].
  unfold Re.re_match, count_here. cbn [Re.go Re.cls_match].
  change (String d ds +:+ String c2 (word +:+ rest))
    with (String d (ds +:+ String c2 (word +:+ rest))).
  cbv beta iota. rewrite Hc1, Hd.
  apply star_last; [done| |].
  - cbn [Re.go Re.cls_match]. rewrite Hc2, go_lit, star_always. simpl. f_equal. f_equal.
    change (String d (ds +:+ String c2 (word +:+ rest)))
      with (String d ds +:+ String c2 (word +:+ rest)).
    apply consumed_app.
  - intros l' s' Heq Hl' Hall. destruct l' as [|c l']; [done|].
    simpl in Heq, Hall. injection Heq as <- _.
    apply andb_prop in Hall as [Hc _].
    by rewrite (space_is_no_digit c2 Hc2) in Hc.
Qed.

Lemma later_places_spec (tail pre2 tail2 : string) :
  tail = pre2 +:+ tail2 → pre2 ≠ "" →
  all_chars (Re.cls_match Re.Dot) pre2 = true →
  tail2 ∈ later_places tail.
Proof.
  revert tail. induction pre2 as [|c pre2 IH]; intros tail -> Hne Hall; [done|].
  cbn [all_chars] in Hall. apply andb_prop in Hall as [Hc Hall].
  change (String c pre2 +:+ tail2) with (String c (pre2 +:+ tail2)).
  cbn [later_places]. rewrite Hc.
  destruct pre2 as [|c' pre2]; [by left|].
  right. by apply IH.
Qed.

Lemma no_later_count_sound (word tail : string) :
  no_later_count word tail = true → last_count_place word tail.
Proof.
  unfold no_later_count. rewrite forallb_forall.
  intros Hall pre2 tail2 digits2 Heq Hne Hpre Hbegin.
  apply count_here_exact in Hbegin.
  specialize (Hall tail2). rewrite Hbegin in Hall.
  assert (false = true); [|done]. apply Hall.
  apply list_elem_of_In. by apply (later_places_spec tail pre2).
Qed.

(** A match of the whole pattern and the place it was taken at. *)
Lemma count_match_some (word s : string) (gs : list string) :
  Re.re_match (Re.Seq (Re.Star Re.Dot) (count_here word)) s = Some gs →
  ∃ digits, has_count word digits s ∧ gs = [digits].
Proof.
  unfold Re.re_match. cbn [Re.go]. intros H.
  apply star_split in H as (pre & tail & -> & Hpre & H).
  apply count_here_some in H as (digits & Hbegin & ->).
  exists digits. split; [|done]. by exists pre, tail.
Qed.

Lemma count_match_complete (word digits s : string) :
  has_count word digits s →
  is_Some (Re.re_match (Re.Seq (Re.Star Re.Dot) (count_here word)) s).
Proof.
  intros (pre & tail & -> & Hpre & Hbegin).
  unfold Re.re_match. cbn [Re.go]. apply star_complete; [done|].
  apply count_here_exact in Hbegin. unfold Re.re_match in Hbegin.
  rewrite Hbegin. by eauto.
Qed.

Lemma count_match_last (word digits pre tail : string) :
  all_chars (Re.cls_match Re.Dot) pre = true →
  begins_with_count word digits tail →
  last_count_place word tail →
  Re.re_match (Re.Seq (Re.Star Re.Dot) (count_here word)) (pre +:+ tail)
  = Some [digits].
Proof.
  intros Hpre Hbegin Hlast. unfold Re.re_match. cbn [Re.go].
  apply star_last; [done| |].
  - by apply count_here_exact in Hbegin.
  - intros pre2 tail2 Heq Hne Hall.
    destruct (Re.go (count_here word) tail2 [] (fun _ gs => Some gs)) as [gs|] eqn:E;
      [|done].
    apply count_here_some in E as (digits2 & Hb & _).
    by destruct (Hlast pre2 tail2 digits2).
Qed.

(** X14: Each of the two patterns matches exactly the texts that hold a count
    of its word at a place behind characters of the first line: a white
    space (the line feed that ends the first line among them), digits, a
    white space, the word. *)
Theorem count_is_matched_iff (err_str : string) :
  (is_Some (Re.re_match severe_reg err_str)
   ↔ ∃ digits, has_count "Severe Errors" digits err_str)
  ∧ (is_Some (Re.re_match warning_reg err_str)
     ↔ ∃ digits, has_count "Warning" digits err_str).
Proof.
  rewrite severe_reg_unfold, warning_reg_unfold.
  split; split.
  - intros [gs (digits & H & _)%count_match_some]. by exists digits.
  - intros [digits H]. by apply (count_match_complete _ digits).
  - intros [gs (digits & H & _)%count_match_some]. by exists digits.
  - intros [digits H]. by apply (count_match_complete _ digits).
Qed.

Lemma reported_count_text_helper (err_str : string) :
  (Re.re_match severe_reg err_str = None ∧ severe_ct err_str = 0
   ∨ ∃ digits, has_count "Severe Errors" digits err_str
               ∧ severe_ct err_str = Str.int digits)
  ∧ (Re.re_match warning_reg err_str = None ∧ warning_ct err_str = 0
     ∨ ∃ digits, has_count "Warning" digits err_str
                 ∧ warning_ct err_str = Str.int digits).
Proof.
  assert (H : ∀ word,
            let m := Re.re_match (Re.Seq (Re.Star Re.Dot) (count_here word)) err_str in
            m = None ∧ count_of m = 0
            ∨ ∃ digits, has_count word digits err_str ∧ count_of m = Str.int digits).
  { intros word m. destruct m as [gs|] eqn:E; [|by left].
    right. apply count_match_some in E as (digits & H & ->). by exists digits. }
  split; [apply (H "Severe Errors")|apply (H "Warning")].
Qed.

(** X15: A count that is not 0 by default is the number that the text shows
    at such a place. *)
Theorem reported_count_is_written_in_text (err_str : string) :
  (Re.re_match severe_reg err_str = None ∧ severe_ct err_str = 0
   ∨ ∃ digits, has_count "Severe Errors" digits err_str
               ∧ severe_ct err_str = Str.int digits)
  ∧ (Re.re_match warning_reg err_str = None ∧ warning_ct err_str = 0
     ∨ ∃ digits, has_count "Warning" digits err_str
                 ∧ warning_ct err_str = Str.int digits).
Proof.
  unfold severe_ct, warning_ct. split.
  - destruct (Re.re_match severe_reg err_str) as [gs|] eqn:E; [|by left].
    right. rewrite severe_reg_unfold in E.
    apply count_match_some in E as (digits & H & ->). by exists digits.
  - destruct (Re.re_match warning_reg err_str) as [gs|] eqn:E; [|by left].
    right. rewrite warning_reg_unfold in E.
    apply count_match_some in E as (digits & H & ->). by exists digits.
Qed.

(** X16: The two counts are never negative. *)
Theorem counts_are_not_negative (err_str : string) :
  (0 <= severe_ct err_str)%Z ∧ (0 <= warning_ct err_str)%Z.
Proof.
  assert (Hint : ∀ word digits s,
            has_count word digits s → (0 <= Str.int digits)%Z).
  { intros word digits s (_ & _ & _ & _ & (_ & _ & _ & _ & _ & _ & Hds & _)).
    by apply int_from_nonneg. }
  destruct (reported_count_text_helper err_str) as [Hs Hw].
  split.
  - destruct Hs as [[_ ->]|(digits & H & ->)]; [done|]. by apply (Hint _ _ _ H).
  - destruct Hw as [[_ ->]|(digits & H & ->)]; [done|]. by apply (Hint _ _ _ H).
Qed.

(** X17: Of several counts on the first line, the last one is read: a count
    that begins behind characters of the first line, with no other count
    beginning further on at a place that [.*] reaches, is the one
    reported. *)
Theorem count_is_read_at_last_place (pre tail digits : string)
    (Hpre : all_chars (Re.cls_match Re.Dot) pre = true) :
  (begins_with_count "Severe Errors" digits tail →
   last_count_place "Severe Errors" tail →
   severe_ct (pre +:+ tail) = Str.int digits)
  ∧ (begins_with_count "Warning" digits tail →
     last_count_place "Warning" tail →
     warning_ct (pre +:+ tail) = Str.int digits).
Proof.
  unfold severe_ct, warning_ct.
  rewrite severe_reg_unfold, warning_reg_unfold.
  split; intros Hbegin Hlast; by rewrite (count_match_last _ digits).
Qed.

Lemma count_is_read_at_last_place_witness :
  warning_ct ("EnergyPlus Completed Successfully--"
              +:+ " 7 Warning; 3 Severe Errors; Elapsed Time=00hr 00min  2.50sec")
  = Str.int "7".
Proof.
  apply (count_is_read_at_last_place "EnergyPlus Completed Successfully--"
           " 7 Warning; 3 Severe Errors; Elapsed Time=00hr 00min  2.50sec" "7").
  - by vm_compute.
  - exists " "%char, " "%char, "; 3 Severe Errors; Elapsed Time=00hr 00min  2.50sec".
    by vm_compute.
  - apply no_later_count_sound. by vm_compute.
Defined.

(** X18: The line feed is a white space for the patterns: a count that stands
    at the very start of the second line is read, and it takes
    precedence over every count of the first line. *)
Theorem count_at_start_of_second_line_is_read
    (line digits rest : string) (c2 : ascii)
    (Hline : all_chars (Re.cls_match Re.Dot) line = true)
    (Hne : digits ≠ "")
    (Hdigits : all_chars Re.is_digit digits = true)
    (Hc2 : Re.is_space c2 = true) :
  severe_ct (line +:+ Str.LF +:+ digits +:+ String c2 ("Severe Errors" +:+ rest))
  = Str.int digits
  ∧ warning_ct (line +:+ Str.LF +:+ digits +:+ String c2 ("Warning" +:+ rest))
    = Str.int digits.
Proof.
  assert (Hlast : ∀ word,
            last_count_place word
              (Str.LF +:+ digits +:+ String c2 (word +:+ rest))).
  { intros word pre2 tail2 digits2 Heq Hpre2 Hall.
    destruct pre2 as [|c pre2]; [done|].
    cbn in Heq. injection Heq as <- _. by vm_compute in Hall. }
  assert (Hbegin : ∀ word,
            begins_with_count word digits
              (Str.LF +:+ digits +:+ String c2 (word +:+ rest))).
  { intros word. exists "010"%char, c2, rest. by repeat split. }
  unfold severe_ct, warning_ct.
  rewrite severe_reg_unfold, warning_reg_unfold.
  split; by rewrite (count_match_last _ digits).
Qed.

Lemma count_at_start_of_second_line_is_read_witness :
  warning_ct ("EnergyPlus Completed Successfully" +:+ Str.LF
              +:+ "12" +:+ String " " ("Warning" +:+ "; 0 Severe Errors"))
  = Str.int "12".
Proof.
  apply (count_at_start_of_second_line_is_read
           "EnergyPlus Completed Successfully" "12" "; 0 Severe Errors" " ");
    by vm_compute.
Defined.

(** ** The outcomes of the simulate step *)

Section SimulateFurther.
Variables (Sql Payload : Type).
Variable tabular_data :
  Sql -> list (string * string) -> list string ->
  gmap string (list string * list (list json)).
Variable serialize_df : DataFrame -> Payload.
Implicit Types (spec : SimulationSpecWithContext) (a : Attempt Sql).

(** X19: What these calls raise leaves the step as it is: the
    preparation; the engine call, when what it raises is not an
    [Exception]; the opening of the output store after a successful
    engine call; the reading of eplusout.end after that. *)
Theorem simulate_raises_what_the_call_raised spec a (t : throwable)
    (Hcall :
      prepare a = Raise t
      ∨ prepare a = Ok tt
        ∧ ((idf_simulate a = Raise t ∧ ∃ e, t = BaseExceptionOnly e)
           ∨ idf_simulate a = Ok tt
             ∧ (sql_open a = Raise t
                ∨ (∃ sql, sql_open a = Ok sql) ∧ end_file_read_text a = Raise t))) :
  simulate tabular_data serialize_df spec a = Raise t.
Proof.
  unfold simulate, run_and_collect, _generate_error_warning_counts_df.
  destruct Hcall as [->|[-> [[-> [e ->]]|[-> [->|[[sql ->] ->]]]]]]; done.
Qed.

(** X20: The step returns a table set only after a preparation that
    succeeds, with index data whose values can all be hashed, and in one
    of two ways: the engine call raised an [Exception] and the set is the
    [err] table alone; or the engine call succeeded, the store opened and
    eplusout.end was read, and the set is the tables of the store with
    the frame of the two counts under [energyplus_message_counts]. *)
Theorem simulate_returns_only_if spec a tables
    (Hreturn : simulate tabular_data serialize_df spec a = Ok tables) :
  prepare a = Ok tt
  ∧ index_hashable (_generate_index_data spec) = true
  ∧ ((∃ e, idf_simulate a = Raise (Exception e)
           ∧ tables
             = serialize_df_dict serialize_df
                 {[ "err" :=
                      {| index_names := Dict.keys (_generate_index_data spec);
                         index := [Dict.values (_generate_index_data spec)];
                         columns := ["msg"];
                         data := [[JStr (exc_str e)]] |} ]})
     ∨ (∃ sql err_str,
          idf_simulate a = Ok tt ∧ sql_open a = Ok sql
          ∧ end_file_read_text a = Ok err_str
          ∧ tables
            = serialize_df_dict serialize_df
                (<["energyplus_message_counts" :=
                     message_counts (_generate_index_data spec) err_str]>
                   (postprocess tabular_data sql (_generate_index_data spec)
                      [("AnnualBuildingUtilityPerformanceSummary", "End Uses")]
                      ["Electricity"; "Natural Gas"; "Fuel Oil No 2"])))).
Proof.
  assert (Hp : prepare a = Ok tt).
  { unfold simulate in Hreturn. by destruct (prepare a) as [[]|]. }
  apply simulate_returns_inv in Hreturn as (dfs & Hrun & ->); [|done].
  split; [done|].
  destruct (idf_simulate a) as [[]|[e|e]] eqn:He.
  - destruct (run_and_collect_success_inv Sql tabular_data spec a dfs He Hrun)
      as (sql & err_str & Hs & Ht & Hhash & ->).
    split; [done|]. right. by exists sql, err_str.
  - pose proof (run_and_collect_failure_inv Sql tabular_data spec a e dfs He Hrun)
      as Hhash.
    split; [done|]. left. exists e. split; [done|].
    rewrite (run_and_collect_failure Sql tabular_data spec a e He Hhash) in Hrun.
    by injection Hrun as <-.
  - unfold run_and_collect in Hrun. by rewrite He in Hrun.
Qed.

(** X22: When a value of the index data cannot be hashed (a field that
    holds a list or a dict), an [Exception] of the engine call is not
    turned into an [err] table: the handler raises a TypeError while it
    builds the index, and the step returns nothing. *)
Theorem unhashable_index_value_loses_err_table spec a e
    (Hprepare : prepare a = Ok tt)
    (Hengine : idf_simulate a = Raise (Exception e))
    (Hunhashable : index_hashable (_generate_index_data spec) = false) :
  ∃ v, v ∈ Dict.values (_generate_index_data spec)
       ∧ hashable v = false
       ∧ exc_type (unhashable_type v) = "TypeError"
       ∧ simulate tabular_data serialize_df spec a
         = Raise (Exception (unhashable_type v)).
Proof.
  destruct (one_row_frame_unhashable (_generate_index_data spec)
              ["msg"] [JStr (exc_str e)] Hunhashable) as (v & Hin & Hv & Hraise).
  exists v. repeat split; try done.
  unfold simulate, run_and_collect. by rewrite Hprepare, Hengine, Hraise.
Qed.

End SimulateFurther.

Lemma simulate_raises_what_the_call_raised_witness :
  simulate Sample.no_tables id Sample.spec MoreSamples.sql_missing
  = Raise (Exception Sample.missing).
Proof.
  apply (simulate_raises_what_the_call_raised unit DataFrame Sample.no_tables id).
  right. split; [reflexivity|]. right. split; [reflexivity|]. by left.
Defined.

Lemma sample_returns :
  ∃ tables, simulate Sample.no_tables id Sample.spec Sample.succeeded = Ok tables.
Proof. eexists. by vm_compute. Qed.

Lemma simulate_returns_only_if_witness :
  index_hashable (_generate_index_data Sample.spec) = true.
Proof.
  destruct sample_returns as [tables Hreturn].
  exact (proj1 (proj2 (simulate_returns_only_if unit DataFrame Sample.no_tables id
                         Sample.spec Sample.succeeded tables Hreturn))).
Defined.

Lemma unhashable_index_value_loses_err_table_witness :
  ∃ v, simulate Sample.no_tables id MoreSamples.with_list Sample.failed
       = Raise (Exception (unhashable_type v)).
Proof.
  destruct (unhashable_index_value_loses_err_table unit DataFrame Sample.no_tables id
              MoreSamples.with_list Sample.failed Sample.boom
              eq_refl eq_refl eq_refl) as (v & _ & _ & _ & H).
  by exists v.
Defined.

(** ** Summaries that the diagnostics accept *)

Lemma digit_value_le_9 (c : ascii) : Re.is_digit c = true → (Str.digit_value c <= 9)%Z.
Proof. destruct c as [[] [] [] [] [] [] [] []]; by vm_compute. Qed.

Lemma int_from_bound (digits : string) (acc : Z) :
  (0 <= acc)%Z → all_chars Re.is_digit digits = true →
  (Str.int_from acc digits < (acc + 1) * 10 ^ Z.of_nat (String.length digits))%Z.
Proof.
  revert acc. induction digits as [|c ds IH]; intros acc Hacc Hds.
  - simpl. lia.
  - cbn [all_chars] in Hds. apply andb_prop in Hds as [Hc Hds].
    pose proof (digit_value_nonneg c Hc) as H0.
    pose proof (digit_value_le_9 c Hc) as H9.
    cbn [Str.int_from String.length]. rewrite Nat2Z.inj_succ, Z.pow_succ_r by lia.
    specialize (IH (10 * acc + Str.digit_value c)%Z ltac:(lia) Hds).
    assert (0 < 10 ^ Z.of_nat (String.length ds))%Z by (apply Z.pow_pos_nonneg; lia).
    nia.
Qed.

Lemma has_count_digits_length (word digits s : string) :
  has_count word digits s → (String.length digits < String.length s)%nat.
Proof.
  intros (pre & tail & -> & _ & (c1 & c2 & rest & -> & _)).
  rewrite string_length_app. cbn [String.length].
  rewrite string_length_app. lia.
Qed.

Lemma float_range_holds_308_digits : (10 ^ 308 < 2 ^ 1024 - 2 ^ 970)%Z.
Proof. apply Z.ltb_lt. by vm_compute. Qed.

Lemma short_count_accepted (word s : string) :
  (String.length s <= 308)%nat →
  digits_accepted (Re.re_match (Re.Seq (Re.Star Re.Dot) (count_here word)) s) = true
  ∧ float_overflows
      (count_of (Re.re_match (Re.Seq (Re.Star Re.Dot) (count_here word)) s)) = false.
Proof.
  intros Hshort.
  destruct (Re.re_match _ s) as [gs|] eqn:E; [|split; [done|by vm_compute]].
  apply count_match_some in E as (digits & Hcount & ->).
  pose proof (has_count_digits_length _ _ _ Hcount) as Hlen.
  destruct Hcount as (_ & _ & _ & _ & (_ & _ & _ & _ & _ & _ & Hds & _)).
  split.
  - cbn [digits_accepted hd]. apply Nat.leb_le. unfold int_max_str_digits. lia.
  - cbn [count_of hd]. unfold float_overflows. apply Z.leb_gt.
    pose proof (int_from_nonneg digits 0 ltac:(lia) Hds) as H0.
    pose proof (int_from_bound digits 0 ltac:(lia) Hds) as Hb.
    pose proof float_range_holds_308_digits as HB.
    assert (10 ^ Z.of_nat (String.length digits) <= 10 ^ 308)%Z
      by (apply Z.pow_le_mono_r; lia).
    unfold Str.int. generalize dependent (2 ^ 1024 - 2 ^ 970)%Z.
    generalize dependent (10 ^ 308)%Z. intros. lia.
Qed.

(** X23: A summary text of at most 308 characters, as the engine writes
    it, is always accepted: both counts are converted and stored, and
    with index data whose values can be hashed
    [_generate_error_warning_counts_df] answers with the frame of the two
    counts. *)
Theorem short_summary_is_accepted (err_str : string)
    (Hshort : (String.length err_str <= 308)%nat) :
  counts_accepted err_str = true
  ∧ ∀ index_data,
      index_data ≠ [] → index_hashable index_data = true →
      _generate_error_warning_counts_df (Ok err_str) index_data
      = Ok (message_counts index_data err_str).
Proof.
  assert (Hacc : counts_accepted err_str = true).
  { unfold counts_accepted, severe_ct, warning_ct.
    rewrite severe_reg_unfold, warning_reg_unfold.
    destruct (short_count_accepted "Severe Errors" err_str Hshort) as [-> ->].
    by destruct (short_count_accepted "Warning" err_str Hshort) as [-> ->]. }
  split; [done|]. intros index_data Hne Hhash. by apply generate_counts_ok.
Qed.

Lemma short_summary_is_accepted_witness :
  _generate_error_warning_counts_df (Ok one_line_summary)
    (_generate_index_data Sample.spec)
  = Ok (message_counts (_generate_index_data Sample.spec) one_line_summary).
Proof.
  apply (short_summary_is_accepted one_line_summary).
  - apply Nat.leb_le. by vm_compute.
  - discriminate.
  - by vm_compute.
Defined.
